(** * cups/hash.c: the hashing facade of CUPS

    A shallow embedding of [cupsHashData] and [cupsHashString] and the
    properties their specification states about them.

    Conventions of the embedding:
    - [size_t] is a 64-bit unsigned integer, kept as a [Z] with the
      wrap-around of its arithmetic and of the casts written out;
    - [char] and [unsigned char] are [Byte.byte];
    - a pointer argument is an [option]: [None] is the null pointer and
      [Some l] points to an object holding the bytes [l];
    - the one object a call writes to lives in the state of a small monad,
      next to the trace of calls to the external collaborators (the digest
      primitives and [_cupsSetError]); an access outside an object has no
      defined behaviour in C and makes the computation fail. *)

From Stdlib Require Import ZArith NArith Lia Bool String Ascii.
From Stdlib.Strings Require Import Byte.
From stdpp Require Import base option list.

Local Open Scope Z_scope.

(** ** Machine integers *)

Definition SIZE_MAX : Z := 2 ^ 64 - 1.
Definition PTRDIFF_MAX : Z := 2 ^ 63 - 1.
Definition INT_MAX : Z := 2 ^ 31 - 1.

(** Arithmetic on [size_t] wraps modulo [SIZE_MAX + 1]. *)
Definition size_t (n : Z) : Z := n mod (SIZE_MAX + 1).

(** [(CC_LONG)n]: [CC_LONG] is [uint32_t]. *)
Definition CC_LONG (n : Z) : Z := n mod 2 ^ 32.

(** [(int)n], with the usual two's complement conversion. *)
Definition int (n : Z) : Z := (n + 2 ^ 31) mod 2 ^ 32 - 2 ^ 31.

(** A byte as a number and back. *)
Definition Z_of_byte (b : byte) : Z := Z.of_N (Byte.to_N b).

Definition byte_of_Z (z : Z) : byte :=
  default x00 (Byte.of_N (Z.to_N (z mod 256))).

(** ** External collaborators and the effects of a call *)

Inductive primitive : Set :=
  MD5 | SHA1 | SHA224 | SHA256 | SHA384 | SHA512.

Inductive ipp_status_t : Set := IPP_STATUS_ERROR_INTERNAL.

Inductive event : Type :=
| Digest (p : primitive) (message : list byte)
| SetError (status : ipp_status_t) (message : string) (set_localized : Z).

Record state : Type := State {
  mem : option (list byte);
  trace : list event
}.

Definition M (A : Type) : Type := state -> option (A * state).

Definition ret {A} (a : A) : M A := fun s => Some (a, s).

Definition bind {A B} (m : M A) (f : A -> M B) : M B :=
  fun s => match m s with
           | Some (a, s') => f a s'
           | None => None
           end.

Notation "x <- m ;; k" := (bind m (fun x => k))
  (at level 100, m at next level, right associativity).
Notation "m ;; k" := (bind m (fun _ => k))
  (at level 100, right associativity).

(** Undefined behaviour. *)
Definition undefined {A} : M A := fun _ => None.

(** [l[i]] for a read-only object [l]. *)
Definition load (l : list byte) (i : nat) : M byte :=
  match l !! i with
  | Some b => ret b
  | None => undefined
  end.

(** The first [n] bytes of a read-only object. *)
Definition load_bytes (l : list byte) (n : Z) : M (list byte) :=
  if (n <=? Z.of_nat (length l)) then ret (take (Z.to_nat n) l) else undefined.

(** [p[i] = b] for the writable object [p]. *)
Definition store (i : nat) (b : byte) : M unit :=
  fun s => match mem s with
           | Some m =>
               if decide (i < length m)%nat
               then Some (tt, State (Some (<[i:=b]> m)) (trace s))
               else None
           | None => None
           end.

(** [memcpy(p, src, length src)] for the writable object [p]. *)
Definition store_bytes (src : list byte) : M unit :=
  fun s => match mem s with
           | Some m =>
               if decide (length src <= length m)%nat
               then Some (tt, State (Some (src ++ drop (length src) m)) (trace s))
               else None
           | None => None
           end.

Definition emit (e : event) : M unit :=
  fun s => Some (tt, State (mem s) (trace s ++ [e])).

Definition _cupsSetError (status : ipp_status_t) (message : string)
    (set_localized : Z) : M unit :=
  emit (SetError status message set_localized).

(** What a call leaves behind: its return value, the object it could write
    to and the collaborators it called, in order. *)
Record outcome (A : Type) : Type := Outcome {
  result : A;
  memory : option (list byte);
  calls : list event
}.
Arguments Outcome {A} _ _ _.
Arguments result {A} _.
Arguments memory {A} _.
Arguments calls {A} _.

Definition exec {A} (m : M A) (object : option (list byte)) : option (outcome A) :=
  match m (State object []) with
  | Some (a, s) => Some (Outcome a (mem s) (trace s))
  | None => None
  end.

Definition is_null {A} (p : option A) : bool :=
  match p with Some _ => false | None => true end.

(** ** cupsHashString *)

Module HashString.

Definition hex : list byte := list_byte_of_string "0123456789abcdef".

Definition NUL : byte := x00.

(** [*hash >> 4] and [*hash & 15], as indices into [hex]. *)
Definition hi (b : byte) : nat := N.to_nat (N.shiftr (Byte.to_N b) 4).
Definition lo (b : byte) : nat := N.to_nat (N.land (Byte.to_N b) 15).

(** The value [cupsHashString] returns: [NULL] or its argument [buffer]. *)
Inductive char_ptr : Set := NULL | BUFFER.

(** The loop [while (hashsize > 0)]: [hashsize] is the loop counter, [hp] and
    [bufptr] are the offsets of [hash] and [bufptr] in their objects. The
    value is the final [bufptr]. *)
Fixpoint convert (hashsize : nat) (hash : list byte) (hp bufptr : nat) : M nat :=
  match hashsize with
  | O => ret bufptr
  | S hashsize' =>
      b <- load hash hp ;;
      c <- load hex (hi b) ;;
      store bufptr c ;;
      b <- load hash hp ;;
      c <- load hex (lo b) ;;
      store (S bufptr) c ;;
      convert hashsize' hash (S hp) (S (S bufptr))
  end.

(** The condition under the comment "Range check input...". *)
Definition out_of_range (hash : option (list byte)) (hashsize : Z)
    (buffer : option (list byte)) (bufsize : Z) : bool :=
  is_null hash || (hashsize <? 1) || is_null buffer
  || (bufsize <? size_t (2 * hashsize + 1)).

Definition body (hash : option (list byte)) (hashsize : Z)
    (buffer : option (list byte)) (bufsize : Z) : M char_ptr :=
  if out_of_range hash hashsize buffer bufsize
  then
    (if is_null buffer then ret tt else store 0 NUL) ;;
    ret NULL
  else
    bufptr <- convert (Z.to_nat hashsize) (default [] hash) 0 0 ;;
    store bufptr NUL ;;
    ret BUFFER.

Definition cupsHashString (hash : option (list byte)) (hashsize : Z)
    (buffer : option (list byte)) (bufsize : Z) : option (outcome char_ptr) :=
  exec (body hash hashsize buffer bufsize) buffer.

(** The C string held by a buffer: the bytes before the first NUL. *)
Fixpoint c_string (buf : list byte) : list byte :=
  match buf with
  | [] => []
  | b :: buf' => if Byte.eqb b NUL then [] else b :: c_string buf'
  end.

End HashString.

(** ** The digest primitives *)

(** Modelled from the spec: the headers that define [CC_MD5_DIGEST_LENGTH],
    [CC_SHA1_DIGEST_LENGTH], ... and [gnutls_hash_get_len] are not among the
    sources. The number of bytes each primitive writes is the canonical
    length that the digest length table of the specification gives it. *)
Definition digest_size (p : primitive) : Z :=
  match p with
  | MD5 => 16
  | SHA1 => 20
  | SHA224 => 28
  | SHA256 => 32
  | SHA384 => 48
  | SHA512 => 64
  end.

(** The digest engines are not part of hash.c. All the dispatcher relies on
    is that a primitive maps the message it is given to a digest of its own
    fixed size. *)
Record backend : Type := Backend {
  digest : primitive -> list byte -> list byte;
  digest_length :
    forall p message, Z.of_nat (length (digest p message)) = digest_size p
}.

(** ** cupsHashData *)

Module HashData.

(** The three arms of [#ifdef __APPLE__ / #elif defined(HAVE_GNUTLS) / #else];
    [sha224] tells whether CommonCrypto defines [CC_SHA224_DIGEST_LENGTH]. *)
Inductive build : Set :=
| CommonCrypto (sha224 : bool)
| GnuTLS
| Bundled.

Definition CC_MD5_DIGEST_LENGTH : Z := digest_size MD5.
Definition CC_SHA1_DIGEST_LENGTH : Z := digest_size SHA1.
Definition CC_SHA224_DIGEST_LENGTH : Z := digest_size SHA224.
Definition CC_SHA256_DIGEST_LENGTH : Z := digest_size SHA256.
Definition CC_SHA384_DIGEST_LENGTH : Z := digest_size SHA384.
Definition CC_SHA512_DIGEST_LENGTH : Z := digest_size SHA512.

Inductive gnutls_digest_algorithm_t : Set :=
| GNUTLS_DIG_UNKNOWN
| GNUTLS_DIG_SHA1
| GNUTLS_DIG_SHA224
| GNUTLS_DIG_SHA256
| GNUTLS_DIG_SHA384
| GNUTLS_DIG_SHA512.

Definition gnutls_primitive (alg : gnutls_digest_algorithm_t) : option primitive :=
  match alg with
  | GNUTLS_DIG_UNKNOWN => None
  | GNUTLS_DIG_SHA1 => Some SHA1
  | GNUTLS_DIG_SHA224 => Some SHA224
  | GNUTLS_DIG_SHA256 => Some SHA256
  | GNUTLS_DIG_SHA384 => Some SHA384
  | GNUTLS_DIG_SHA512 => Some SHA512
  end.

Definition gnutls_hash_get_len (alg : gnutls_digest_algorithm_t) : Z :=
  match gnutls_primitive alg with
  | Some p => digest_size p
  | None => 0
  end.

Definition is_unknown (alg : gnutls_digest_algorithm_t) : bool :=
  match alg with GNUTLS_DIG_UNKNOWN => true | _ => false end.

(** [!strcmp(a, b)] *)
Definition same (a b : string) : bool := String.eqb a b.

Section Dispatcher.

Variable B : backend.

(** One run of a primitive over the first [n] bytes of [data]; the value is
    the digest the primitive hands back. *)
Definition run (p : primitive) (data : list byte) (n : Z) : M (list byte) :=
  message <- load_bytes data n ;;
  emit (Digest p message) ;;
  ret (digest B p message).

(** [CC_X_Init(&ctx); CC_X_Update(&ctx, data, (CC_LONG)datalen);
    CC_X_Final(md, &ctx)] *)
Definition CC (p : primitive) (data : list byte) (datalen : Z) : M (list byte) :=
  run p data (CC_LONG datalen).

(** [_cupsMD5Init(&state); _cupsMD5Append(&state, data, (int)datalen);
    _cupsMD5Finish(&state, md)]. The three functions are defined in md5.c,
    which is not among the sources: they are taken to produce the MD5 digest
    of the bytes appended, and [_cupsMD5Append] to append nothing when its
    count is not positive. *)
Definition _cupsMD5 (data : list byte) (datalen : Z) : M (list byte) :=
  let nbytes := int datalen in
  if nbytes <=? 0 then run MD5 data 0 else run MD5 data nbytes.

(** [gnutls_hash_fast(alg, data, datalen, md)] *)
Definition gnutls_hash_fast (alg : gnutls_digest_algorithm_t)
    (data : list byte) (datalen : Z) : M (list byte) :=
  match gnutls_primitive alg with
  | Some p => run p data datalen
  | None => undefined
  end.

(** The code after the label [too_small]. *)
Definition too_small : M Z :=
  _cupsSetError IPP_STATUS_ERROR_INTERNAL "Hash buffer too small." 1 ;;
  ret (-1).

(** The code under the comment "Unknown hash algorithm...". *)
Definition unknown : M Z :=
  _cupsSetError IPP_STATUS_ERROR_INTERNAL "Unknown hash algorithm." 1 ;;
  ret (-1).

(** A branch of the CommonCrypto arm that hashes straight into [hash]. *)
Definition cc_direct (p : primitive) (DIGEST_LENGTH : Z)
    (data : list byte) (datalen hashsize : Z) : M Z :=
  if hashsize <? DIGEST_LENGTH then too_small
  else
    md <- CC p data datalen ;;
    store_bytes md ;;
    ret DIGEST_LENGTH.

(** A branch of the CommonCrypto arm that hashes into the local array [temp]
    and copies its first [DIGEST_LENGTH] bytes. *)
Definition cc_truncated (DIGEST_LENGTH : Z)
    (data : list byte) (datalen hashsize : Z) : M Z :=
  if hashsize <? DIGEST_LENGTH then too_small
  else
    temp <- CC SHA512 data datalen ;;
    store_bytes (take (Z.to_nat DIGEST_LENGTH) temp) ;;
    ret DIGEST_LENGTH.

Definition common_crypto (sha224 : bool) (algorithm : string)
    (data : list byte) (datalen hashsize : Z) : M Z :=
  if same algorithm "md5" then
    cc_direct MD5 CC_MD5_DIGEST_LENGTH data datalen hashsize
  else if same algorithm "sha" then
    cc_direct SHA1 CC_SHA1_DIGEST_LENGTH data datalen hashsize
  else if sha224 && same algorithm "sha2-224" then
    cc_direct SHA224 CC_SHA224_DIGEST_LENGTH data datalen hashsize
  else if same algorithm "sha2-256" then
    cc_direct SHA256 CC_SHA256_DIGEST_LENGTH data datalen hashsize
  else if same algorithm "sha2-384" then
    cc_direct SHA384 CC_SHA384_DIGEST_LENGTH data datalen hashsize
  else if same algorithm "sha2-512" then
    cc_direct SHA512 CC_SHA512_DIGEST_LENGTH data datalen hashsize
  else if sha224 && same algorithm "sha2-512_224" then
    cc_truncated CC_SHA224_DIGEST_LENGTH data datalen hashsize
  else if same algorithm "sha2-512_256" then
    cc_truncated CC_SHA256_DIGEST_LENGTH data datalen hashsize
  else unknown.

(** The MD5 branch shared by the GNU TLS arm and the last arm. *)
Definition bundled_md5 (data : list byte) (datalen hashsize : Z) : M Z :=
  if hashsize <? 16 then too_small
  else
    md <- _cupsMD5 data datalen ;;
    store_bytes md ;;
    ret 16.

(** The chain of assignments to [alg] and [tempsize] in the GNU TLS arm. *)
Definition gnutls_select (algorithm : string) : gnutls_digest_algorithm_t * Z :=
  if same algorithm "sha" then (GNUTLS_DIG_SHA1, 0)
  else if same algorithm "sha2-224" then (GNUTLS_DIG_SHA224, 0)
  else if same algorithm "sha2-256" then (GNUTLS_DIG_SHA256, 0)
  else if same algorithm "sha2-384" then (GNUTLS_DIG_SHA384, 0)
  else if same algorithm "sha2-512" then (GNUTLS_DIG_SHA512, 0)
  else if same algorithm "sha2-512_224" then (GNUTLS_DIG_SHA512, 28)
  else if same algorithm "sha2-512_256" then (GNUTLS_DIG_SHA512, 32)
  else (GNUTLS_DIG_UNKNOWN, 0).

(** The block under [if (alg != GNUTLS_DIG_UNKNOWN)]. *)
Definition gnutls_digest (alg : gnutls_digest_algorithm_t) (tempsize : Z)
    (data : list byte) (datalen hashsize : Z) : M Z :=
  if 0 <? tempsize then
    if hashsize <? tempsize then too_small
    else
      temp <- gnutls_hash_fast alg data datalen ;;
      store_bytes (take (Z.to_nat tempsize) temp) ;;
      ret tempsize
  else if hashsize <? gnutls_hash_get_len alg then too_small
  else
    md <- gnutls_hash_fast alg data datalen ;;
    store_bytes md ;;
    ret (gnutls_hash_get_len alg).

Definition gnutls (algorithm : string)
    (data : list byte) (datalen hashsize : Z) : M Z :=
  if same algorithm "md5" then bundled_md5 data datalen hashsize
  else
    let '(alg, tempsize) := gnutls_select algorithm in
    if negb (is_unknown alg)
    then gnutls_digest alg tempsize data datalen hashsize
    else unknown.

Definition bundled (algorithm : string)
    (data : list byte) (datalen hashsize : Z) : M Z :=
  if same algorithm "md5" then bundled_md5 data datalen hashsize
  else if hashsize <? 64 then too_small
  else unknown.

(** The arm the preprocessor keeps. *)
Definition dispatch (b : build) (algorithm : string)
    (data : list byte) (datalen hashsize : Z) : M Z :=
  match b with
  | CommonCrypto sha224 => common_crypto sha224 algorithm data datalen hashsize
  | GnuTLS => gnutls algorithm data datalen hashsize
  | Bundled => bundled algorithm data datalen hashsize
  end.

(** The condition of the first [if]. *)
Definition bad_arguments (algorithm : option string)
    (data : option (list byte)) (datalen : Z)
    (hash : option (list byte)) (hashsize : Z) : bool :=
  is_null algorithm || is_null data || (datalen =? 0)
  || is_null hash || (hashsize =? 0).

Definition body (b : build) (algorithm : option string)
    (data : option (list byte)) (datalen : Z)
    (hash : option (list byte)) (hashsize : Z) : M Z :=
  if bad_arguments algorithm data datalen hash hashsize
  then
    _cupsSetError IPP_STATUS_ERROR_INTERNAL "Bad arguments to function" 1 ;;
    ret (-1)
  else
    dispatch b (default EmptyString algorithm) (default [] data) datalen
      hashsize.

Definition cupsHashData (b : build) (algorithm : option string)
    (data : option (list byte)) (datalen : Z)
    (hash : option (list byte)) (hashsize : Z) : option (outcome Z) :=
  exec (body b algorithm data datalen hash hashsize) hash.

End Dispatcher.

(** Three readings of the dispatcher, used to state its properties. *)

(** The primitive and the number of digest bytes that the chain of [strcmp]
    of a build selects for an identifier. *)
Definition resolve (b : build) (algorithm : string) : option (primitive * Z) :=
  match b with
  | CommonCrypto sha224 =>
      if same algorithm "md5" then Some (MD5, CC_MD5_DIGEST_LENGTH)
      else if same algorithm "sha" then Some (SHA1, CC_SHA1_DIGEST_LENGTH)
      else if sha224 && same algorithm "sha2-224" then
        Some (SHA224, CC_SHA224_DIGEST_LENGTH)
      else if same algorithm "sha2-256" then
        Some (SHA256, CC_SHA256_DIGEST_LENGTH)
      else if same algorithm "sha2-384" then
        Some (SHA384, CC_SHA384_DIGEST_LENGTH)
      else if same algorithm "sha2-512" then
        Some (SHA512, CC_SHA512_DIGEST_LENGTH)
      else if sha224 && same algorithm "sha2-512_224" then
        Some (SHA512, CC_SHA224_DIGEST_LENGTH)
      else if same algorithm "sha2-512_256" then
        Some (SHA512, CC_SHA256_DIGEST_LENGTH)
      else None
  | GnuTLS =>
      if same algorithm "md5" then Some (MD5, 16)
      else
        let '(alg, tempsize) := gnutls_select algorithm in
        match gnutls_primitive alg with
        | Some p =>
            Some (p, if 0 <? tempsize then tempsize else gnutls_hash_get_len alg)
        | None => None
        end
  | Bundled => if same algorithm "md5" then Some (MD5, 16) else None
  end.

(** Whether a build has a branch for an identifier of the digest length
    table. *)
Definition provides (b : build) (algorithm : string) : bool :=
  match b with
  | CommonCrypto sha224 =>
      sha224
      || negb (same algorithm "sha2-224" || same algorithm "sha2-512_224")
  | GnuTLS => true
  | Bundled => same algorithm "md5"
  end.

(** The number of bytes of [data] that reach the primitive: CommonCrypto
    takes a [CC_LONG], the bundled MD5 an [int] and [gnutls_hash_fast] a
    [size_t]. *)
Definition handed (b : build) (p : primitive) (datalen : Z) : Z :=
  match b, p with
  | CommonCrypto _, _ => CC_LONG datalen
  | _, MD5 => Z.max 0 (int datalen)
  | _, _ => datalen
  end.

End HashData.

(** ** Reference digests

    Modelled from the spec: the digest engines (CommonCrypto, GNU TLS and the
    bundled md5.c) are external collaborators that are not among the sources;
    the specification only asks that they agree with a reference
    implementation of their algorithm. The reference taken here is RFC 1321
    for MD5 and FIPS 180-4 for SHA-1 and the SHA-2 family, over bytes and
    words kept as [Z]. *)

Module Reference.

(** Words of [w] bits. *)
Definition add (w x y : Z) : Z := (x + y) mod 2 ^ w.
Definition not (w x : Z) : Z := Z.lxor x (2 ^ w - 1).
Definition rotl (w x n : Z) : Z :=
  Z.lor (Z.shiftl x n mod 2 ^ w) (Z.shiftr x (w - n)).
Definition rotr (w x n : Z) : Z := rotl w x (w - n).

(** The [n] bytes of [x], most significant first and least significant
    first. *)
Definition be_bytes (n : nat) (x : Z) : list Z :=
  map (fun i => Z.shiftr x (8 * Z.of_nat (n - 1 - i)) mod 256) (seq 0 n).
Definition le_bytes (n : nat) (x : Z) : list Z :=
  map (fun i => Z.shiftr x (8 * Z.of_nat i) mod 256) (seq 0 n).

Definition be_word (bytes : list Z) : Z :=
  fold_left (fun acc b => acc * 256 + b) bytes 0.
Definition le_word (bytes : list Z) : Z := be_word (rev bytes).

(** Successive groups of [k] elements of [l]; [fuel] bounds their number. *)
Fixpoint chunks {A} (fuel k : nat) (l : list A) : list (list A) :=
  match fuel with
  | O => []
  | S fuel' =>
      match l with
      | [] => []
      | _ => take k l :: chunks fuel' k (drop k l)
      end
  end.

(** Padding to a multiple of [block] bytes: a 1 bit, zeros, and the length
    of the message in bits as given by [encode]. *)
Definition pad (block lenbytes : nat) (encode : nat -> Z -> list Z)
    (msg : list Z) : list Z :=
  let l := length msg in
  let zeros := ((block - (l + 1 + lenbytes) mod block) mod block)%nat in
  msg ++ [128] ++ repeat 0 zeros ++ encode lenbytes (8 * Z.of_nat l).

Definition blocks (block lenbytes wordbytes : nat)
    (encode : nat -> Z -> list Z) (word : list Z -> Z)
    (msg : list Z) : list (list Z) :=
  let padded := pad block lenbytes encode msg in
  map (fun blk => map word (chunks block wordbytes blk))
      (chunks (length padded) block padded).

(** Appends [n] further words to the schedule [W], each computed by [next]
    from the words before it. *)
Fixpoint extend (n : nat) (next : list Z -> Z) (W : list Z) : list Z :=
  match n with
  | O => W
  | S n' => extend n' next (W ++ [next W])
  end.

(** [W[t - k]] for the word [W[t]] about to be appended. *)
Definition back (W : list Z) (k : nat) : Z := nth (length W - k) W 0.

(** *** MD5 (RFC 1321) *)

Definition md5_T : list Z := [
  0xd76aa478; 0xe8c7b756; 0x242070db; 0xc1bdceee;
  0xf57c0faf; 0x4787c62a; 0xa8304613; 0xfd469501;
  0x698098d8; 0x8b44f7af; 0xffff5bb1; 0x895cd7be;
  0x6b901122; 0xfd987193; 0xa679438e; 0x49b40821;
  0xf61e2562; 0xc040b340; 0x265e5a51; 0xe9b6c7aa;
  0xd62f105d; 0x02441453; 0xd8a1e681; 0xe7d3fbc8;
  0x21e1cde6; 0xc33707d6; 0xf4d50d87; 0x455a14ed;
  0xa9e3e905; 0xfcefa3f8; 0x676f02d9; 0x8d2a4c8a;
  0xfffa3942; 0x8771f681; 0x6d9d6122; 0xfde5380c;
  0xa4beea44; 0x4bdecfa9; 0xf6bb4b60; 0xbebfbc70;
  0x289b7ec6; 0xeaa127fa; 0xd4ef3085; 0x04881d05;
  0xd9d4d039; 0xe6db99e5; 0x1fa27cf8; 0xc4ac5665;
  0xf4292244; 0x432aff97; 0xab9423a7; 0xfc93a039;
  0x655b59c3; 0x8f0ccc92; 0xffeff47d; 0x85845dd1;
  0x6fa87e4f; 0xfe2ce6e0; 0xa3014314; 0x4e0811a1;
  0xf7537e82; 0xbd3af235; 0x2ad7d2bb; 0xeb86d391 ].

Definition md5_s : list Z := [
  7; 12; 17; 22; 7; 12; 17; 22; 7; 12; 17; 22; 7; 12; 17; 22;
  5; 9; 14; 20; 5; 9; 14; 20; 5; 9; 14; 20; 5; 9; 14; 20;
  4; 11; 16; 23; 4; 11; 16; 23; 4; 11; 16; 23; 4; 11; 16; 23;
  6; 10; 15; 21; 6; 10; 15; 21; 6; 10; 15; 21; 6; 10; 15; 21 ].

Definition md5_step (X : list Z) (st : Z * Z * Z * Z) (i : nat)
    : Z * Z * Z * Z :=
  let '(a, b, c, d) := st in
  let '(f, g) :=
    if (i <? 16)%nat then
      (Z.lor (Z.land b c) (Z.land (not 32 b) d), i)
    else if (i <? 32)%nat then
      (Z.lor (Z.land d b) (Z.land (not 32 d) c), ((5 * i + 1) mod 16)%nat)
    else if (i <? 48)%nat then
      (Z.lxor (Z.lxor b c) d, ((3 * i + 5) mod 16)%nat)
    else
      (Z.lxor c (Z.lor b (not 32 d)), ((7 * i) mod 16)%nat) in
  let f := add 32 (add 32 (add 32 f a) (nth i md5_T 0)) (nth g X 0) in
  (d, add 32 b (rotl 32 f (nth i md5_s 0)), b, c).

Definition md5_block (st : Z * Z * Z * Z) (X : list Z) : Z * Z * Z * Z :=
  let '(a, b, c, d) := st in
  let '(a', b', c', d') := fold_left (md5_step X) (seq 0 64) st in
  (add 32 a a', add 32 b b', add 32 c c', add 32 d d').

Definition md5 (msg : list Z) : list Z :=
  let '(a, b, c, d) :=
    fold_left md5_block (blocks 64 8 4 le_bytes le_word msg)
      (0x67452301, 0xefcdab89, 0x98badcfe, 0x10325476) in
  le_bytes 4 a ++ le_bytes 4 b ++ le_bytes 4 c ++ le_bytes 4 d.

(** *** SHA-1 (FIPS 180-4, section 6.1) *)

Definition sha1_schedule (M : list Z) : list Z :=
  extend 64
    (fun W =>
       rotl 32 (Z.lxor (Z.lxor (back W 3) (back W 8))
                       (Z.lxor (back W 14) (back W 16))) 1)
    M.

Definition sha1_step (W : list Z) (st : Z * Z * Z * Z * Z) (t : nat)
    : Z * Z * Z * Z * Z :=
  let '(a, b, c, d, e) := st in
  let '(f, k) :=
    if (t <? 20)%nat then
      (Z.lxor (Z.land b c) (Z.land (not 32 b) d), 0x5a827999)
    else if (t <? 40)%nat then
      (Z.lxor (Z.lxor b c) d, 0x6ed9eba1)
    else if (t <? 60)%nat then
      (Z.lxor (Z.lxor (Z.land b c) (Z.land b d)) (Z.land c d), 0x8f1bbcdc)
    else
      (Z.lxor (Z.lxor b c) d, 0xca62c1d6) in
  let T := add 32 (add 32 (add 32 (add 32 (rotl 32 a 5) f) e) k) (nth t W 0) in
  (T, a, rotl 32 b 30, c, d).

Definition sha1_block (st : Z * Z * Z * Z * Z) (M : list Z)
    : Z * Z * Z * Z * Z :=
  let '(a, b, c, d, e) := st in
  let '(a', b', c', d', e') :=
    fold_left (sha1_step (sha1_schedule M)) (seq 0 80) st in
  (add 32 a a', add 32 b b', add 32 c c', add 32 d d', add 32 e e').

Definition sha1 (msg : list Z) : list Z :=
  let '(a, b, c, d, e) :=
    fold_left sha1_block (blocks 64 8 4 be_bytes be_word msg)
      (0x67452301, 0xefcdab89, 0x98badcfe, 0x10325476, 0xc3d2e1f0) in
  be_bytes 4 a ++ be_bytes 4 b ++ be_bytes 4 c ++ be_bytes 4 d
    ++ be_bytes 4 e.

(** *** SHA-2 (FIPS 180-4, sections 5.3, 6.2 and 6.4) *)

Definition is_prime (n : nat) : bool :=
  (1 <? n)%nat && forallb (fun d => negb (n mod d =? 0)%nat) (seq 2 (n - 2)).

(** The first eighty prime numbers. *)
Definition primes : list Z :=
  Eval vm_compute in map Z.of_nat (List.filter is_prime (seq 0 410)).

(** The largest [r + k] with [k < 2 ^ bits] whose cube is at most [n]. *)
Fixpoint cube_root (bits : nat) (n r : Z) : Z :=
  match bits with
  | O => r
  | S bits' =>
      let r' := r + 2 ^ Z.of_nat bits' in
      if r' ^ 3 <=? n then cube_root bits' n r' else cube_root bits' n r
  end.

(** The first [w] bits of the fractional part of the square root and of the
    cube root of [p]. *)
Definition frac_sqrt (w p : Z) : Z := Z.sqrt (p * 2 ^ (2 * w)) mod 2 ^ w.
Definition frac_cbrt (w p : Z) : Z :=
  cube_root (Z.to_nat w + 3) (p * 2 ^ (3 * w)) 0 mod 2 ^ w.

Definition sha256_K : list Z :=
  Eval vm_compute in map (frac_cbrt 32) (take 64 primes).
Definition sha512_K : list Z :=
  Eval vm_compute in map (frac_cbrt 64) (take 80 primes).

Definition sha256_H : list Z :=
  Eval vm_compute in map (frac_sqrt 32) (take 8 primes).
Definition sha512_H : list Z :=
  Eval vm_compute in map (frac_sqrt 64) (take 8 primes).
Definition sha384_H : list Z :=
  Eval vm_compute in map (frac_sqrt 64) (take 8 (drop 8 primes)).
Definition sha224_H : list Z :=
  Eval vm_compute in map (fun h => h mod 2 ^ 32) sha384_H.

(** What distinguishes the 32-bit from the 64-bit functions: the word size,
    the round constants, and the rotation counts of the six functions
    sigma0, sigma1 (small) and Sigma0, Sigma1 (capital). *)
Record sha2_params : Type := Sha2 {
  bits : Z;
  K : list Z;
  s0 : Z * Z * Z;
  s1 : Z * Z * Z;
  S0 : Z * Z * Z;
  S1 : Z * Z * Z
}.

Definition sha256_params : sha2_params :=
  Sha2 32 sha256_K (7, 18, 3) (17, 19, 10) (2, 13, 22) (6, 11, 25).
Definition sha512_params : sha2_params :=
  Sha2 64 sha512_K (1, 8, 7) (19, 61, 6) (28, 34, 39) (14, 18, 41).

Section Sha2.

Variable P : sha2_params.

Let w := bits P.

Definition small_sigma (r : Z * Z * Z) (x : Z) : Z :=
  let '(r1, r2, r3) := r in
  Z.lxor (Z.lxor (rotr w x r1) (rotr w x r2)) (Z.shiftr x r3).

Definition big_sigma (r : Z * Z * Z) (x : Z) : Z :=
  let '(r1, r2, r3) := r in
  Z.lxor (Z.lxor (rotr w x r1) (rotr w x r2)) (rotr w x r3).

Definition Ch (x y z : Z) : Z := Z.lxor (Z.land x y) (Z.land (not w x) z).
Definition Maj (x y z : Z) : Z :=
  Z.lxor (Z.lxor (Z.land x y) (Z.land x z)) (Z.land y z).

Definition sha2_schedule (M : list Z) : list Z :=
  extend (length (K P) - 16)
    (fun W =>
       add w (add w (add w (small_sigma (s1 P) (back W 2)) (back W 7))
                    (small_sigma (s0 P) (back W 15)))
             (back W 16))
    M.

Definition sha2_state : Type := Z * Z * Z * Z * Z * Z * Z * Z.

Definition sha2_step (W : list Z) (st : sha2_state) (t : nat) : sha2_state :=
  let '(a, b, c, d, e, f, g, h) := st in
  let T1 :=
    add w (add w (add w (add w h (big_sigma (S1 P) e)) (Ch e f g))
                 (nth t (K P) 0))
          (nth t W 0) in
  let T2 := add w (big_sigma (S0 P) a) (Maj a b c) in
  (add w T1 T2, a, b, c, add w d T1, e, f, g).

Definition sha2_block (st : sha2_state) (M : list Z) : sha2_state :=
  let '(a, b, c, d, e, f, g, h) := st in
  let '(a', b', c', d', e', f', g', h') :=
    fold_left (sha2_step (sha2_schedule M)) (seq 0 (length (K P))) st in
  (add w a a', add w b b', add w c c', add w d d',
   add w e e', add w f f', add w g g', add w h h').

(** The eight words of the final hash value, as bytes. *)
Definition sha2 (H : list Z) (msg : list Z) : list Z :=
  let n := Z.to_nat (w / 8) in
  let '(a, b, c, d, e, f, g, h) :=
    fold_left sha2_block
      (blocks (16 * n) (2 * n) n be_bytes be_word msg)
      (nth 0 H 0, nth 1 H 0, nth 2 H 0, nth 3 H 0,
       nth 4 H 0, nth 5 H 0, nth 6 H 0, nth 7 H 0) in
  be_bytes n a ++ be_bytes n b ++ be_bytes n c ++ be_bytes n d
    ++ be_bytes n e ++ be_bytes n f ++ be_bytes n g ++ be_bytes n h.

End Sha2.

Definition sha256 (msg : list Z) : list Z := sha2 sha256_params sha256_H msg.
Definition sha224 (msg : list Z) : list Z :=
  take 28 (sha2 sha256_params sha224_H msg).
Definition sha512 (msg : list Z) : list Z := sha2 sha512_params sha512_H msg.
Definition sha384 (msg : list Z) : list Z :=
  take 48 (sha2 sha512_params sha384_H msg).

Definition reference_digest (p : primitive) (message : list byte) : list byte :=
  let msg := map Z_of_byte message in
  map byte_of_Z
    match p with
    | MD5 => md5 msg
    | SHA1 => sha1 msg
    | SHA224 => sha224 msg
    | SHA256 => sha256 msg
    | SHA384 => sha384 msg
    | SHA512 => sha512 msg
    end.

End Reference.

(** The reference digests have the sizes the dispatcher counts on. *)
Lemma reference_digest_length p message :
  Z.of_nat (length (Reference.reference_digest p message)) = digest_size p.
Proof.
  unfold Reference.reference_digest. rewrite length_map.
  destruct p; cbv [digest_size].
  - unfold Reference.md5.
    destruct (fold_left _ _ _) as [[[a b] c] d]. reflexivity.
  - unfold Reference.sha1.
    destruct (fold_left _ _ _) as [[[[a b] c] d] e]. reflexivity.
  - unfold Reference.sha224, Reference.sha2.
    destruct (fold_left _ _ _) as [[[[[[[a b] c] d] e] f] g] h]. reflexivity.
  - unfold Reference.sha256, Reference.sha2.
    destruct (fold_left _ _ _) as [[[[[[[a b] c] d] e] f] g] h]. reflexivity.
  - unfold Reference.sha384, Reference.sha2.
    destruct (fold_left _ _ _) as [[[[[[[a b] c] d] e] f] g] h]. reflexivity.
  - unfold Reference.sha512, Reference.sha2.
    destruct (fold_left _ _ _) as [[[[[[[a b] c] d] e] f] g] h]. reflexivity.
Qed.

(** The backend made of the reference digests. *)
Definition reference : backend :=
  Backend Reference.reference_digest reference_digest_length.

(** ** Vocabulary of the specification *)

(** The digest length table, with the primitive behind each identifier: the
    two truncated variants keep the leading bytes of a SHA-512 digest. *)
Definition algorithms : list (string * (primitive * Z)) :=
  [ ("md5", (MD5, 16)); ("sha", (SHA1, 20)); ("sha2-224", (SHA224, 28));
    ("sha2-256", (SHA256, 32)); ("sha2-384", (SHA384, 48));
    ("sha2-512", (SHA512, 64)); ("sha2-512_224", (SHA512, 28));
    ("sha2-512_256", (SHA512, 32)) ]%string.

(** A buffer whose first [n] bytes were replaced by those of [md]. *)
Definition written (md : list byte) (n : Z) (buf : list byte) : list byte :=
  take (Z.to_nat n) md ++ drop (Z.to_nat n) buf.

(** The three failures [cupsHashData] reports. *)
Definition bad_arguments_report : event :=
  SetError IPP_STATUS_ERROR_INTERNAL "Bad arguments to function" 1.
Definition unknown_report : event :=
  SetError IPP_STATUS_ERROR_INTERNAL "Unknown hash algorithm." 1.
Definition too_small_report : event :=
  SetError IPP_STATUS_ERROR_INTERNAL "Hash buffer too small." 1.

(** The hexadecimal digit of a value below sixteen: the characters '0' to
    '9' are 48 to 57 and 'a' to 'f' are 97 to 102. *)
Definition hex_digit (v : Z) : byte :=
  byte_of_Z (if v <? 10 then 48 + v else 87 + v).

Definition is_hex_digit (c : byte) : bool :=
  let z := Z_of_byte c in
  ((48 <=? z) && (z <=? 57)) || ((97 <=? z) && (z <=? 102)).

Definition digit_value (c : byte) : option Z :=
  let z := Z_of_byte c in
  if (48 <=? z) && (z <=? 57) then Some (z - 48)
  else if (97 <=? z) && (z <=? 102) then Some (z - 87)
  else None.

(** Two characters per byte, high nibble first, in input order. *)
Fixpoint to_hex (d : list byte) : list byte :=
  match d with
  | [] => []
  | b :: d' =>
      hex_digit (Z_of_byte b / 16) :: hex_digit (Z_of_byte b mod 16)
        :: to_hex d'
  end.

(** Pairwise decoding of a hexadecimal string. *)
Fixpoint from_hex (s : list byte) : option (list byte) :=
  match s with
  | [] => Some []
  | h :: l :: s' =>
      match digit_value h, digit_value l, from_hex s' with
      | Some x, Some y, Some d => Some (byte_of_Z (16 * x + y) :: d)
      | _, _, _ => None
      end
  | _ => None
  end.

(** The number of calls to [_cupsSetError] in a trace. *)
Fixpoint reports (t : list event) : nat :=
  match t with
  | [] => 0
  | SetError _ _ _ :: t' => S (reports t')
  | Digest _ _ :: t' => reports t'
  end.

(** The number of runs of a digest primitive in a trace. *)
Fixpoint digests (t : list event) : nat :=
  match t with
  | [] => 0
  | Digest _ _ :: t' => S (digests t')
  | SetError _ _ _ :: t' => digests t'
  end.

(** The input of the end-to-end example. *)
Definition abc : list byte := list_byte_of_string "abc".

Import HashData HashString.

(** * The reference digests on the test vector "abc" *)

Example md5_abc :
  to_hex (digest reference MD5 abc)
  = list_byte_of_string "900150983cd24fb0d6963f7d28e17f72".
Proof. vm_compute. reflexivity. Qed.

Example sha1_abc :
  to_hex (digest reference SHA1 abc)
  = list_byte_of_string "a9993e364706816aba3e25717850c26c9cd0d89d".
Proof. vm_compute. reflexivity. Qed.

Example sha224_abc :
  to_hex (digest reference SHA224 abc)
  = list_byte_of_string
      "23097d223405d8228642a477bda255b32aadbce4bda0b3f7e36c9da7".
Proof. vm_compute. reflexivity. Qed.

Example sha256_abc :
  to_hex (digest reference SHA256 abc)
  = list_byte_of_string
      "ba7816bf8f01cfea414140de5dae2223b00361a396177a9cb410ff61f20015ad".
Proof. vm_compute. reflexivity. Qed.

Example sha384_abc :
  to_hex (digest reference SHA384 abc)
  = list_byte_of_string
      ("cb00753f45a35e8bb5a03d699ac65007272c32ab0eded163"
       ++ "1a8b605a43ff5bed8086072ba1e7cc2358baeca134c825a7").
Proof. vm_compute. reflexivity. Qed.

Example sha512_abc :
  to_hex (digest reference SHA512 abc)
  = list_byte_of_string
      ("ddaf35a193617abacc417349ae20413112e6fa4e89a97ea20a9eeee64b55d39a"
       ++ "2192992a274fc1a836ba3c23a3feebbd454d4423643ce80e2a9ac94fa54ca49f").
Proof. vm_compute. reflexivity. Qed.

(** * Properties of cupsHashString *)

Lemma hex_hi (b : byte) : hex !! hi b = Some (hex_digit (Z_of_byte b / 16)).
Proof. destruct b; reflexivity. Qed.

Lemma hex_lo (b : byte) : hex !! lo b = Some (hex_digit (Z_of_byte b mod 16)).
Proof. destruct b; reflexivity. Qed.

Lemma hex_pair_not_NUL (b : byte) :
  Byte.eqb (hex_digit (Z_of_byte b / 16)) NUL = false
  /\ Byte.eqb (hex_digit (Z_of_byte b mod 16)) NUL = false.
Proof. destruct b; split; reflexivity. Qed.

Lemma hex_pair_digits (b : byte) :
  is_hex_digit (hex_digit (Z_of_byte b / 16)) = true
  /\ is_hex_digit (hex_digit (Z_of_byte b mod 16)) = true.
Proof. destruct b; split; reflexivity. Qed.

Lemma hex_pair_decode (b : byte) :
  exists x y,
    digit_value (hex_digit (Z_of_byte b / 16)) = Some x
    /\ digit_value (hex_digit (Z_of_byte b mod 16)) = Some y
    /\ byte_of_Z (16 * x + y) = b.
Proof.
  destruct b;
    (eexists; eexists; split; [reflexivity | split; reflexivity]).
Qed.

Lemma to_hex_length (d : list byte) : length (to_hex d) = (2 * length d)%nat.
Proof. induction d as [|b d IH]; simpl; lia. Qed.

Lemma to_hex_digits (d : list byte) :
  Forall (fun c => is_hex_digit c = true) (to_hex d).
Proof.
  induction d as [|b d IH]; simpl; [constructor|].
  destruct (hex_pair_digits b). repeat constructor; assumption.
Qed.

Lemma from_hex_to_hex (d : list byte) : from_hex (to_hex d) = Some d.
Proof.
  induction d as [|b d IH]; [reflexivity|].
  cbn [to_hex from_hex].
  destruct (hex_pair_decode b) as (x & y & -> & -> & Hb).
  rewrite IH, Hb. reflexivity.
Qed.

Lemma c_string_to_hex (d rest : list byte) :
  c_string (to_hex d ++ NUL :: rest) = to_hex d.
Proof.
  induction d as [|b d IH]; [reflexivity|].
  cbn [to_hex app c_string].
  destruct (hex_pair_not_NUL b) as [-> ->]. rewrite IH. reflexivity.
Qed.

Lemma store_defined i b m t :
  (i < length m)%nat ->
  store i b (State (Some m) t) = Some (tt, State (Some (<[i:=b]> m)) t).
Proof.
  intros Hi. unfold store. cbn [mem trace].
  destruct (decide (i < length m)%nat); [reflexivity | contradiction].
Qed.

Lemma load_defined (l : list byte) i b s :
  l !! i = Some b -> load l i s = Some (b, s).
Proof. intros H. unfold load. rewrite H. reflexivity. Qed.

(** Two adjacent stores, seen as one splice. *)
Lemma store_pair (m : list byte) i c1 c2 rest k :
  (i + 2 + k <= length m)%nat ->
  take (S (S i)) (<[S i:=c2]> (<[i:=c1]> m)) ++ rest
    ++ drop (S (S i) + k) (<[S i:=c2]> (<[i:=c1]> m))
  = take i m ++ (c1 :: c2 :: rest) ++ drop (i + (2 + k)) m.
Proof.
  intros Hm.
  rewrite !drop_insert_lt by lia.
  rewrite (take_S_r _ (S i) c2)
    by (apply list_lookup_insert_eq; rewrite length_insert; lia).
  rewrite take_insert_ge by lia.
  rewrite (take_S_r _ i c1) by (apply list_lookup_insert_eq; lia).
  rewrite take_insert_ge by lia.
  rewrite <- !app_assoc. cbn [app].
  replace (S (S i) + k)%nat with (i + (2 + k))%nat by lia.
  reflexivity.
Qed.

(** The loop writes the digits of the [n] bytes it reads, two per byte, and
    nothing else. *)
Lemma convert_defined n : forall h hp bufptr m t,
  (hp + n <= length h)%nat ->
  (bufptr + 2 * n <= length m)%nat ->
  convert n h hp bufptr (State (Some m) t)
  = Some ((bufptr + 2 * n)%nat,
          State (Some (take bufptr m ++ to_hex (take n (drop hp h))
                         ++ drop (bufptr + 2 * n) m)) t).
Proof.
  induction n as [|n IH]; intros h hp bufptr m t Hh Hm.
  - cbn [convert ret]. rewrite Nat.mul_0_r, Nat.add_0_r, take_0.
    cbn [to_hex app]. rewrite take_drop. reflexivity.
  - destruct (lookup_lt_is_Some_2 h hp) as [b Hb]; [lia|].
    cbn [convert]. unfold bind.
    rewrite (load_defined _ _ _ _ Hb).
    rewrite (load_defined _ _ _ _ (hex_hi b)).
    rewrite store_defined by lia.
    rewrite (load_defined _ _ _ _ Hb).
    rewrite (load_defined _ _ _ _ (hex_lo b)).
    rewrite store_defined by (rewrite length_insert; lia).
    rewrite IH by (rewrite ?length_insert; lia).
    rewrite store_pair by lia.
    rewrite (drop_S _ _ _ Hb), firstn_cons. cbn [to_hex].
    replace (S (S bufptr) + 2 * n)%nat with (bufptr + 2 * S n)%nat by lia.
    replace (2 + 2 * n)%nat with (2 * S n)%nat by lia.
    reflexivity.
Qed.

(** A call that passes the range check: the buffer receives the digits and
    the terminator, and keeps the rest of its bytes. *)
Lemma cupsHashString_defined (h : list byte) hashsize (buf : list byte) bufsize :
  1 <= hashsize <= Z.of_nat (length h) ->
  2 * hashsize + 1 <= SIZE_MAX ->
  2 * hashsize + 1 <= bufsize <= Z.of_nat (length buf) ->
  cupsHashString (Some h) hashsize (Some buf) bufsize
  = Some (Outcome BUFFER
            (Some (to_hex (take (Z.to_nat hashsize) h) ++ NUL
                     :: drop (2 * Z.to_nat hashsize + 1) buf))
            []).
Proof.
  intros Hh Hb Hbuf.
  unfold cupsHashString, exec, HashString.body, out_of_range.
  assert (Hsz : size_t (2 * hashsize + 1) = 2 * hashsize + 1).
  { unfold size_t. apply Z.mod_small. lia. }
  rewrite Hsz.
  replace (hashsize <? 1) with false by (symmetry; apply Z.ltb_ge; lia).
  replace (bufsize <? 2 * hashsize + 1) with false
    by (symmetry; apply Z.ltb_ge; lia).
  cbn [is_null orb from_option]. unfold bind, id.
  rewrite convert_defined by lia.
  rewrite take_0, drop_0. cbn [app Nat.add].
  rewrite store_defined
    by (rewrite length_app, to_hex_length, length_take, length_drop; lia).
  cbn [ret mem trace]. do 3 f_equal.
  rewrite insert_app_r_alt by (rewrite to_hex_length, length_take; lia).
  rewrite to_hex_length, length_take, Nat.min_l by lia.
  replace (2 * Z.to_nat hashsize - 2 * Z.to_nat hashsize)%nat with 0%nat by lia.
  destruct (drop (2 * Z.to_nat hashsize) buf) as [|x xs] eqn:Hd.
  { apply (f_equal length) in Hd. rewrite length_drop in Hd. simpl in Hd. lia. }
  rewrite <- (drop_drop buf 1 (2 * Z.to_nat hashsize)), Hd. reflexivity.
Qed.

(** A call that fails the range check with a buffer to reset. *)
Lemma cupsHashString_rejected hash hashsize (buf : list byte) bufsize :
  (hash = None \/ hashsize < 1 \/ bufsize < size_t (2 * hashsize + 1)) ->
  (1 <= length buf)%nat ->
  cupsHashString hash hashsize (Some buf) bufsize
  = Some (Outcome NULL (Some (<[0%nat:=NUL]> buf)) []).
Proof.
  intros Hbad Hbuf.
  unfold cupsHashString, exec, HashString.body, out_of_range.
  assert (is_null hash || (hashsize <? 1) || is_null (Some buf)
          || (bufsize <? size_t (2 * hashsize + 1)) = true) as ->.
  { destruct Hbad as [-> | [H | H]].
    - reflexivity.
    - apply Z.ltb_lt in H. rewrite H. destruct (is_null hash); reflexivity.
    - apply Z.ltb_lt in H. rewrite H. apply orb_true_r. }
  cbn [is_null]. unfold bind. rewrite store_defined by lia. reflexivity.
Qed.

(** A call without a buffer. *)
Lemma cupsHashString_no_buffer hash hashsize bufsize :
  cupsHashString hash hashsize None bufsize = Some (Outcome NULL None []).
Proof.
  unfold cupsHashString, exec, HashString.body, out_of_range. cbn [is_null].
  rewrite orb_true_r. reflexivity.
Qed.

(** A call whose pointers are null or point to objects as large as
    declared has an outcome, and calls no collaborator. *)
Lemma cupsHashString_outcome hash hashsize buffer bufsize :
  0 <= hashsize ->
  (forall h, hash = Some h ->
     hashsize <= Z.of_nat (length h) <= PTRDIFF_MAX) ->
  (forall buf, buffer = Some buf ->
     (1 <= length buf)%nat /\ bufsize <= Z.of_nat (length buf)) ->
  exists r m, cupsHashString hash hashsize buffer bufsize
              = Some (Outcome r m []).
Proof.
  intros Hn Hhash Hbuffer.
  destruct buffer as [buf|].
  2:{ do 2 eexists. apply cupsHashString_no_buffer. }
  destruct (Hbuffer buf eq_refl) as [Hlen Hcap].
  destruct hash as [h|].
  2:{ do 2 eexists. apply cupsHashString_rejected; auto. }
  specialize (Hhash h eq_refl).
  assert (size_t (2 * hashsize + 1) = 2 * hashsize + 1) as Hsz.
  { unfold size_t, SIZE_MAX, PTRDIFF_MAX in *. apply Z.mod_small. lia. }
  destruct (Z.ltb_spec hashsize 1).
  { do 2 eexists. apply cupsHashString_rejected; auto. }
  destruct (Z.ltb_spec bufsize (size_t (2 * hashsize + 1))).
  { do 2 eexists. apply cupsHashString_rejected; auto. }
  rewrite Hsz in *.
  do 2 eexists.
  apply cupsHashString_defined; unfold SIZE_MAX, PTRDIFF_MAX in *; lia.
Qed.

(** Without overflow the range check is the comparison the documentation
    states. *)
Lemma out_of_range_spec (h : list byte) hashsize buffer bufsize :
  0 <= hashsize <= PTRDIFF_MAX ->
  out_of_range (Some h) hashsize buffer bufsize = true
  <-> hashsize = 0 \/ buffer = None \/ bufsize < 2 * hashsize + 1.
Proof.
  intros Hh. unfold out_of_range, size_t, SIZE_MAX.
  unfold PTRDIFF_MAX in Hh.
  rewrite (Z.mod_small (2 * hashsize + 1)) by lia.
  cbn [is_null orb]. rewrite !orb_true_iff, !Z.ltb_lt.
  destruct buffer; cbn [is_null]; split; intros H.
  - destruct H as [[H | H] | H]; [left; lia | discriminate | auto].
  - destruct H as [H | [H | H]]; [left; left; lia | discriminate | auto].
  - destruct H as [[H | H] | H]; [left; lia | auto | auto].
  - left. right. reflexivity.
Qed.

(** C2. For a digest [d] of [n >= 1] bytes and a buffer of declared capacity
    at least [2 * n + 1], cupsHashString returns the buffer; the buffer then
    holds a string of exactly [2 * n] characters, all among 0-9a-f, followed
    by the terminator; the string is the encoding of the bytes of [d] in
    order, high nibble first, and decoding it pairwise gives [d] back. *)
Theorem hex_round_trip (d buf : list byte) (bufsize : Z) :
  (1 <= length d)%nat ->
  2 * Z.of_nat (length d) + 1 <= bufsize <= SIZE_MAX ->
  bufsize <= Z.of_nat (length buf) ->
  exists m,
    cupsHashString (Some d) (Z.of_nat (length d)) (Some buf) bufsize
    = Some (Outcome BUFFER (Some m) [])
    /\ length (c_string m) = (2 * length d)%nat
    /\ Forall (fun c => is_hex_digit c = true) (c_string m)
    /\ m !! (2 * length d)%nat = Some NUL
    /\ c_string m = to_hex d
    /\ from_hex (c_string m) = Some d.
Proof.
  intros Hd Hsize Hbuf.
  eexists. split.
  { apply cupsHashString_defined; lia. }
  rewrite Nat2Z.id, firstn_all, c_string_to_hex.
  split; [apply to_hex_length|].
  split; [apply to_hex_digits|].
  split.
  { rewrite lookup_app_r by (rewrite to_hex_length; lia).
    rewrite to_hex_length, Nat.sub_diag. reflexivity. }
  split; [reflexivity | apply from_hex_to_hex].
Qed.

Lemma hex_round_trip_witness :
  exists m,
    cupsHashString (Some [x00; xff; x5a]) 3 (Some (repeat x2a 9)) 7
    = Some (Outcome BUFFER (Some m) [])
    /\ length (c_string m) = 6%nat
    /\ Forall (fun c => is_hex_digit c = true) (c_string m)
    /\ m !! 6%nat = Some NUL
    /\ c_string m = to_hex [x00; xff; x5a]
    /\ from_hex (c_string m) = Some [x00; xff; x5a].
Proof.
  apply (hex_round_trip [x00; xff; x5a] (repeat x2a 9) 7);
    [simpl; lia | unfold SIZE_MAX; simpl; lia | simpl; lia].
Defined.

(** C7. cupsHashString returns NULL exactly when the hash pointer is null,
    the hash size is zero, the buffer pointer is null or the declared
    capacity is less than [2 * hashsize + 1]; whenever it does so with a
    buffer, the buffer then holds the empty string. Stated for calls whose
    pointers are null or point to objects as large as declared. *)
Theorem hex_failure_conditions hash hashsize buffer bufsize :
  0 <= hashsize ->
  (forall h, hash = Some h ->
     hashsize <= Z.of_nat (length h) <= PTRDIFF_MAX) ->
  (forall buf, buffer = Some buf ->
     (1 <= length buf)%nat /\ bufsize <= Z.of_nat (length buf)) ->
  exists o,
    cupsHashString hash hashsize buffer bufsize = Some o
    /\ (result o = NULL
        <-> hash = None \/ hashsize = 0 \/ buffer = None
            \/ bufsize < 2 * hashsize + 1)
    /\ (result o = NULL ->
        forall buf, buffer = Some buf ->
        exists m, memory o = Some m /\ c_string m = []).
Proof.
  intros Hn Hhash Hbuffer.
  destruct buffer as [buf|].
  2:{ eexists. split; [apply cupsHashString_no_buffer|].
      cbn [result]. split; [split; auto|]. intros _ buf Hb. discriminate. }
  destruct (Hbuffer buf eq_refl) as [Hlen Hcap].
  assert (Hreset : c_string (<[0%nat:=NUL]> buf) = []).
  { destruct buf; [simpl in Hlen; lia | reflexivity]. }
  destruct hash as [h|].
  2:{ eexists. split; [apply cupsHashString_rejected; auto|].
      cbn [result memory]. split; [split; auto|].
      intros _ buf' Hb. eauto. }
  specialize (Hhash h eq_refl).
  destruct (out_of_range (Some h) hashsize (Some buf) bufsize) eqn:Hr.
  - pose proof (proj1 (out_of_range_spec h hashsize (Some buf) bufsize
                         ltac:(lia)) Hr) as Hc.
    eexists. split.
    { apply cupsHashString_rejected; [|assumption].
      unfold out_of_range in Hr. cbn [is_null orb] in Hr.
      rewrite orb_false_r, orb_true_iff, !Z.ltb_lt in Hr. tauto. }
    cbn [result memory].
    split; [split; [intros _; right; exact Hc | reflexivity]|]. eauto.
  - assert (Hc : ~ (hashsize = 0 \/ Some buf = None
                    \/ bufsize < 2 * hashsize + 1)).
    { intros Hc.
      apply (out_of_range_spec h hashsize (Some buf) bufsize ltac:(lia)) in Hc.
      congruence. }
    assert (hashsize <> 0 /\ ~ bufsize < 2 * hashsize + 1) as [Hn0 Hfit]
      by tauto.
    eexists. split.
    { apply cupsHashString_defined; unfold SIZE_MAX, PTRDIFF_MAX in *; lia. }
    cbn [result]. split; [|discriminate].
    split; [discriminate|].
    intros [H | H]; [discriminate | tauto].
Qed.

Lemma hex_failure_conditions_witness :
  exists o,
    cupsHashString (Some [x01; x02]) 2 (Some (repeat x2a 4)) 4 = Some o
    /\ (result o = NULL
        <-> Some [x01; x02] = None \/ 2 = 0 \/ Some (repeat x2a 4) = None
            \/ 4 < 2 * 2 + 1)
    /\ (result o = NULL ->
        forall buf, Some (repeat x2a 4) = Some buf ->
        exists m, memory o = Some m /\ c_string m = []).
Proof.
  apply (hex_failure_conditions (Some [x01; x02]) 2 (Some (repeat x2a 4)) 4).
  - lia.
  - intros h [= <-]. unfold PTRDIFF_MAX. simpl. lia.
  - intros buf [= <-]. simpl. lia.
Defined.

(** C10. When the range check of cupsHashString fails and there is a buffer,
    the call returns NULL and writes one byte only: the terminator at index
    0. The bytes at indices 1 and above keep their values. These are all the
    failures: a call that returns NULL has failed the range check. *)
Theorem hex_failure_frame hash hashsize (buf : list byte) bufsize :
  (1 <= length buf)%nat ->
  (out_of_range hash hashsize (Some buf) bufsize = true ->
   exists m,
     cupsHashString hash hashsize (Some buf) bufsize
     = Some (Outcome NULL (Some m) [])
     /\ m !! 0%nat = Some NUL
     /\ length m = length buf
     /\ forall i, (1 <= i)%nat -> m !! i = buf !! i)
  /\ (forall o,
        cupsHashString hash hashsize (Some buf) bufsize = Some o ->
        result o = NULL ->
        out_of_range hash hashsize (Some buf) bufsize = true).
Proof.
  intros Hlen. split.
  - intros Hr. exists (<[0%nat:=NUL]> buf). split.
    { apply cupsHashString_rejected; [|assumption].
      unfold out_of_range in Hr. cbn [is_null] in Hr.
      rewrite orb_false_r in Hr. apply orb_true_iff in Hr.
      destruct Hr as [Hr | Hr]; [|apply Z.ltb_lt in Hr; auto].
      apply orb_true_iff in Hr. destruct Hr as [Hr | Hr].
      - destruct hash; [discriminate | auto].
      - apply Z.ltb_lt in Hr. auto. }
    split; [apply list_lookup_insert_eq; lia|].
    split; [apply length_insert|].
    intros i Hi. apply list_lookup_insert_ne. lia.
  - intros o Ho Hnull.
    destruct (out_of_range hash hashsize (Some buf) bufsize) eqn:Hr;
      [reflexivity|].
    unfold cupsHashString, exec, HashString.body in Ho. rewrite Hr in Ho.
    unfold bind in Ho.
    destruct (convert _ _ _ _ _) as [[bufptr s]|]; [|discriminate Ho].
    destruct (store bufptr NUL s) as [[[] s']|]; [|discriminate Ho].
    injection Ho as <-. discriminate Hnull.
Qed.

Lemma hex_failure_frame_witness :
  exists m,
    cupsHashString (Some [x01; x02]) 2 (Some [x61; x62; x63; x64]) 4
    = Some (Outcome NULL (Some m) [])
    /\ m !! 0%nat = Some NUL
    /\ length m = length [x61; x62; x63; x64]
    /\ forall i, (1 <= i)%nat -> m !! i = [x61; x62; x63; x64] !! i.
Proof.
  apply (hex_failure_frame (Some [x01; x02]) 2 [x61; x62; x63; x64] 4);
    [simpl; lia | reflexivity].
Defined.

(** * Properties of cupsHashData *)

Section DispatcherFacts.

Variable B : backend.

Lemma digest_nat_length p message :
  length (digest B p message) = Z.to_nat (digest_size p).
Proof. pose proof (digest_length B p message). lia. Qed.

Lemma digest_size_pos p : 0 < digest_size p.
Proof. destruct p; reflexivity. Qed.

Lemma run_defined p data n s :
  0 <= n <= Z.of_nat (length data) ->
  run B p data n s
  = Some (digest B p (take (Z.to_nat n) data),
          State (mem s) (trace s ++ [Digest p (take (Z.to_nat n) data)])).
Proof.
  intros Hn. unfold run, bind, load_bytes.
  destruct (Z.leb_spec n (Z.of_nat (length data))); [reflexivity | lia].
Qed.

Lemma store_bytes_defined src (m : list byte) t :
  (length src <= length m)%nat ->
  store_bytes src (State (Some m) t)
  = Some (tt, State (Some (src ++ drop (length src) m)) t).
Proof.
  intros Hlen. unfold store_bytes. cbn [mem trace].
  destruct (decide (length src <= length m)%nat); [reflexivity | contradiction].
Qed.

Lemma too_small_run s :
  too_small s = Some (-1, State (mem s) (trace s ++ [too_small_report])).
Proof. reflexivity. Qed.

Lemma unknown_run s :
  unknown s = Some (-1, State (mem s) (trace s ++ [unknown_report])).
Proof. reflexivity. Qed.

(** Running a primitive over [len] bytes and copying [n] bytes of its
    digest into a buffer that is large enough. *)
Lemma digest_into_buffer p data len n (buf : list byte) t (k : Z) :
  0 <= len <= Z.of_nat (length data) ->
  0 <= n <= digest_size p ->
  n <= Z.of_nat (length buf) ->
  (md <- run B p data len ;;
   store_bytes (take (Z.to_nat n) md) ;;
   ret k) (State (Some buf) t)
  = Some (k, State (Some (written (digest B p (take (Z.to_nat len) data)) n buf))
                   (t ++ [Digest p (take (Z.to_nat len) data)])).
Proof.
  intros Hlen Hn Hbuf. unfold bind at 1. rewrite run_defined by assumption.
  cbn [mem trace]. unfold bind.
  assert (Hl : length (take (Z.to_nat n) (digest B p (take (Z.to_nat len) data)))
               = Z.to_nat n).
  { rewrite length_take, digest_nat_length. lia. }
  rewrite store_bytes_defined by lia.
  rewrite Hl. reflexivity.
Qed.

(** The same when the whole digest is stored. *)
Lemma digest_into_buffer_whole p data len (buf : list byte) t (k : Z) :
  0 <= len <= Z.of_nat (length data) ->
  digest_size p <= Z.of_nat (length buf) ->
  (md <- run B p data len ;; store_bytes md ;; ret k) (State (Some buf) t)
  = Some (k, State (Some (written (digest B p (take (Z.to_nat len) data))
                            (digest_size p) buf))
                   (t ++ [Digest p (take (Z.to_nat len) data)])).
Proof.
  intros Hlen Hbuf.
  rewrite <- (digest_into_buffer p data len (digest_size p) buf t k)
    by (pose proof (digest_size_pos p); lia).
  unfold bind. destruct (run B p data len _) as [[md s']|] eqn:Hrun; [|reflexivity].
  rewrite run_defined in Hrun by assumption. injection Hrun as <- <-.
  rewrite (take_ge (digest B p _)) by (rewrite digest_nat_length; lia).
  reflexivity.
Qed.

Lemma CC_LONG_range datalen : 0 <= datalen -> 0 <= CC_LONG datalen <= datalen.
Proof.
  intros H. unfold CC_LONG. split.
  - apply Z.mod_pos_bound. lia.
  - apply Z.mod_le; lia.
Qed.

Lemma int_range datalen : 0 <= datalen -> 0 <= Z.max 0 (int datalen) <= datalen.
Proof.
  intros H. unfold int.
  pose proof (Z.mod_le (datalen + 2 ^ 31) (2 ^ 32) ltac:(lia) ltac:(lia)).
  lia.
Qed.

Lemma cc_direct_run p data datalen hashsize (buf : list byte) t :
  0 <= datalen <= Z.of_nat (length data) ->
  hashsize <= Z.of_nat (length buf) ->
  cc_direct B p (digest_size p) data datalen hashsize (State (Some buf) t)
  = if hashsize <? digest_size p
    then Some (-1, State (Some buf) (t ++ [too_small_report]))
    else
      let message := take (Z.to_nat (CC_LONG datalen)) data in
      Some (digest_size p,
            State (Some (written (digest B p message) (digest_size p) buf))
                  (t ++ [Digest p message])).
Proof.
  intros Hdata Hbuf. unfold cc_direct.
  destruct (Z.ltb_spec hashsize (digest_size p)); [reflexivity|].
  unfold CC. apply digest_into_buffer_whole; [|lia].
  pose proof (CC_LONG_range datalen). lia.
Qed.

Lemma cc_truncated_run n data datalen hashsize (buf : list byte) t :
  0 <= n <= 64 ->
  0 <= datalen <= Z.of_nat (length data) ->
  hashsize <= Z.of_nat (length buf) ->
  cc_truncated B n data datalen hashsize (State (Some buf) t)
  = if hashsize <? n
    then Some (-1, State (Some buf) (t ++ [too_small_report]))
    else
      let message := take (Z.to_nat (CC_LONG datalen)) data in
      Some (n, State (Some (written (digest B SHA512 message) n buf))
                     (t ++ [Digest SHA512 message])).
Proof.
  intros Hn Hdata Hbuf. unfold cc_truncated.
  destruct (Z.ltb_spec hashsize n); [reflexivity|].
  unfold CC. apply digest_into_buffer; [|assumption|lia].
  pose proof (CC_LONG_range datalen). lia.
Qed.

Lemma bundled_md5_run data datalen hashsize (buf : list byte) t :
  0 <= datalen <= Z.of_nat (length data) ->
  hashsize <= Z.of_nat (length buf) ->
  bundled_md5 B data datalen hashsize (State (Some buf) t)
  = if hashsize <? 16
    then Some (-1, State (Some buf) (t ++ [too_small_report]))
    else
      let message := take (Z.to_nat (Z.max 0 (int datalen))) data in
      Some (16, State (Some (written (digest B MD5 message) 16 buf))
                      (t ++ [Digest MD5 message])).
Proof.
  intros Hdata Hbuf. unfold bundled_md5.
  destruct (Z.ltb_spec hashsize 16); [reflexivity|].
  assert (Hrun : _cupsMD5 B data datalen = run B MD5 data (Z.max 0 (int datalen))).
  { unfold _cupsMD5. destruct (Z.leb_spec (int datalen) 0).
    - rewrite Z.max_l by lia. reflexivity.
    - rewrite Z.max_r by lia. reflexivity. }
  rewrite Hrun.
  apply (digest_into_buffer_whole MD5); [|cbn; lia].
  pose proof (int_range datalen). lia.
Qed.

Lemma gnutls_digest_run alg p tempsize data datalen hashsize (buf : list byte) t :
  gnutls_primitive alg = Some p ->
  0 <= tempsize <= digest_size p ->
  0 <= datalen <= Z.of_nat (length data) ->
  hashsize <= Z.of_nat (length buf) ->
  let n := if 0 <? tempsize then tempsize else gnutls_hash_get_len alg in
  gnutls_digest B alg tempsize data datalen hashsize (State (Some buf) t)
  = if hashsize <? n
    then Some (-1, State (Some buf) (t ++ [too_small_report]))
    else
      let message := take (Z.to_nat datalen) data in
      Some (n, State (Some (written (digest B p message) n buf))
                     (t ++ [Digest p message])).
Proof.
  intros Hp Htemp Hdata Hbuf n. subst n.
  unfold gnutls_digest, gnutls_hash_fast, gnutls_hash_get_len. rewrite Hp.
  destruct (Z.ltb_spec 0 tempsize).
  - destruct (Z.ltb_spec hashsize tempsize); [reflexivity|].
    apply digest_into_buffer; lia.
  - destruct (Z.ltb_spec hashsize (digest_size p)); [reflexivity|].
    apply digest_into_buffer_whole; lia.
Qed.

(** What the arm of a build does with an identifier it has a branch for. *)
Lemma dispatch_resolved b algorithm p n data datalen hashsize (buf : list byte) t :
  resolve b algorithm = Some (p, n) ->
  0 <= datalen <= Z.of_nat (length data) ->
  hashsize <= Z.of_nat (length buf) ->
  dispatch B b algorithm data datalen hashsize (State (Some buf) t)
  = if hashsize <? n
    then Some (-1, State (Some buf) (t ++ [too_small_report]))
    else
      let message := take (Z.to_nat (handed b p datalen)) data in
      Some (n, State (Some (written (digest B p message) n buf))
                     (t ++ [Digest p message])).
Proof.
  intros Hres Hdata Hbuf. destruct b as [sha224| |]; cbn [dispatch handed].
  - unfold resolve in Hres. unfold common_crypto.
    repeat match type of Hres with
           | context [same algorithm ?x] => destruct (same algorithm x)
           | context [sha224 && _] => destruct sha224; cbn [andb] in Hres |- *
           end;
      try discriminate; injection Hres as <- <-;
      first [ apply cc_direct_run; assumption
            | apply cc_truncated_run; [cbn; lia | assumption | assumption] ].
  - unfold resolve in Hres. unfold gnutls.
    destruct (same algorithm "md5").
    { injection Hres as <- <-. apply bundled_md5_run; assumption. }
    destruct (gnutls_select algorithm) as [alg tempsize] eqn:Hsel.
    destruct (gnutls_primitive alg) as [q|] eqn:Hq; [|discriminate].
    injection Hres as -> <-.
    assert (is_unknown alg = false) as -> by (destruct alg; [discriminate|..]; reflexivity).
    cbn [negb].
    assert (Hhanded : (match p with MD5 => Z.max 0 (int datalen) | _ => datalen end)
                      = datalen)
      by (destruct alg; cbn in Hq; try discriminate; injection Hq as <-; reflexivity).
    rewrite Hhanded.
    apply (gnutls_digest_run alg p tempsize); try assumption.
    unfold gnutls_select in Hsel.
    repeat match type of Hsel with
           | context [same algorithm ?x] => destruct (same algorithm x)
           end;
      injection Hsel as <- <-; cbn in Hq; try discriminate;
      injection Hq as <-; cbn; lia.
  - unfold resolve in Hres. unfold bundled.
    destruct (same algorithm "md5"); [|discriminate].
    injection Hres as <- <-. apply bundled_md5_run; assumption.
Qed.

(** What it does with any other identifier. *)
Lemma dispatch_unresolved b algorithm data datalen hashsize s :
  resolve b algorithm = None ->
  dispatch B b algorithm data datalen hashsize s
  = Some (-1, State (mem s)
                (trace s ++ [match b with
                             | Bundled =>
                                 if hashsize <? 64 then too_small_report
                                 else unknown_report
                             | _ => unknown_report
                             end])).
Proof.
  intros Hres. destruct b as [sha224| |]; cbn [dispatch].
  - unfold resolve in Hres. unfold common_crypto.
    repeat match type of Hres with
           | context [same algorithm ?x] => destruct (same algorithm x)
           | context [sha224 && _] => destruct sha224; cbn [andb] in Hres |- *
           end;
      try discriminate; reflexivity.
  - unfold resolve in Hres. unfold gnutls.
    destruct (same algorithm "md5"); [discriminate|].
    destruct (gnutls_select algorithm) as [alg tempsize] eqn:Hsel.
    destruct alg; cbn in Hres; try discriminate. reflexivity.
  - unfold resolve in Hres. unfold bundled.
    destruct (same algorithm "md5"); [discriminate|].
    destruct (hashsize <? 64); reflexivity.
Qed.

(** A buffer smaller than the digest is refused before anything runs. *)
Lemma dispatch_too_small b algorithm p n data datalen hashsize s :
  resolve b algorithm = Some (p, n) ->
  hashsize < n ->
  dispatch B b algorithm data datalen hashsize s
  = Some (-1, State (mem s) (trace s ++ [too_small_report])).
Proof.
  intros Hres Hsmall. apply Z.ltb_lt in Hsmall.
  destruct b as [sha224| |]; cbn [dispatch].
  - unfold resolve in Hres. unfold common_crypto.
    repeat match type of Hres with
           | context [same algorithm ?x] => destruct (same algorithm x)
           | context [sha224 && _] => destruct sha224; cbn [andb] in Hres |- *
           end;
      try discriminate; injection Hres as <- <-;
      unfold cc_direct, cc_truncated; rewrite Hsmall; reflexivity.
  - unfold resolve in Hres. unfold gnutls, bundled_md5.
    destruct (same algorithm "md5").
    { injection Hres as <- <-. rewrite Hsmall. reflexivity. }
    destruct (gnutls_select algorithm) as [alg tempsize].
    destruct (gnutls_primitive alg) as [q|] eqn:Hq; [|discriminate].
    injection Hres as -> <-.
    assert (is_unknown alg = false) as ->
      by (destruct alg; [discriminate|..]; reflexivity).
    cbn [negb]. unfold gnutls_digest.
    destruct (0 <? tempsize); rewrite Hsmall; reflexivity.
  - unfold resolve in Hres. unfold bundled, bundled_md5.
    destruct (same algorithm "md5"); [|discriminate].
    injection Hres as <- <-. rewrite Hsmall. reflexivity.
Qed.

Lemma resolve_size b algorithm p n :
  resolve b algorithm = Some (p, n) -> 0 < n <= 64.
Proof.
  intros Hres. destruct b as [sha224| |]; unfold resolve in Hres.
  - repeat match type of Hres with
           | context [same algorithm ?x] => destruct (same algorithm x)
           | context [sha224 && _] => destruct sha224; cbn [andb] in Hres
           end;
      try discriminate; injection Hres as <- <-; cbn; lia.
  - destruct (same algorithm "md5"); [injection Hres as <- <-; lia|].
    unfold gnutls_select in Hres.
    repeat match type of Hres with
           | context [same algorithm ?x] => destruct (same algorithm x)
           end;
      cbn in Hres; try discriminate; injection Hres as <- <-; lia.
  - destruct (same algorithm "md5"); [|discriminate].
    injection Hres as <- <-. lia.
Qed.

(** *** Whole calls *)

Lemma cupsHashData_rejected b algorithm data datalen hash hashsize :
  bad_arguments algorithm data datalen hash hashsize = true ->
  cupsHashData B b algorithm data datalen hash hashsize
  = Some (Outcome (-1) hash [bad_arguments_report]).
Proof.
  intros Hbad. unfold cupsHashData, exec, HashData.body. rewrite Hbad. reflexivity.
Qed.

Lemma bad_arguments_spec algorithm data datalen hash hashsize :
  bad_arguments algorithm data datalen hash hashsize = true
  <-> algorithm = None \/ data = None \/ datalen = 0 \/ hash = None
      \/ hashsize = 0.
Proof.
  unfold bad_arguments. rewrite !orb_true_iff, !Z.eqb_eq.
  destruct algorithm, data, hash; cbn [is_null];
    intuition (discriminate || auto).
Qed.

Lemma cupsHashData_dispatched b algorithm data datalen (buf : list byte) hashsize :
  datalen <> 0 -> hashsize <> 0 ->
  cupsHashData B b (Some algorithm) (Some data) datalen (Some buf) hashsize
  = exec (dispatch B b algorithm data datalen hashsize) (Some buf).
Proof.
  intros Hd Hh. unfold cupsHashData, HashData.body, bad_arguments. cbn [is_null orb].
  apply Z.eqb_neq in Hd, Hh. rewrite Hd, Hh. reflexivity.
Qed.

(** A successful call: the digest of the bytes that reach the primitive is
    in the first [n] bytes of the buffer, the rest of the buffer is as it
    was, and the primitive ran once. *)
Lemma cupsHashData_digest b algorithm p n data datalen (buf : list byte) hashsize :
  resolve b algorithm = Some (p, n) ->
  0 < datalen <= Z.of_nat (length data) ->
  n <= hashsize <= Z.of_nat (length buf) ->
  let message := take (Z.to_nat (handed b p datalen)) data in
  cupsHashData B b (Some algorithm) (Some data) datalen (Some buf) hashsize
  = Some (Outcome n (Some (written (digest B p message) n buf))
            [Digest p message]).
Proof.
  intros Hres Hdata Hbuf message.
  pose proof (resolve_size _ _ _ _ Hres).
  rewrite cupsHashData_dispatched by lia. unfold exec.
  rewrite (dispatch_resolved b algorithm p n) by (assumption || lia).
  destruct (Z.ltb_spec hashsize n); [lia | reflexivity].
Qed.

(** A call with a buffer that is too small for the digest. *)
Lemma cupsHashData_too_small b algorithm p n data datalen (buf : list byte) hashsize :
  resolve b algorithm = Some (p, n) ->
  datalen <> 0 -> hashsize <> 0 -> hashsize < n ->
  cupsHashData B b (Some algorithm) (Some data) datalen (Some buf) hashsize
  = Some (Outcome (-1) (Some buf) [too_small_report]).
Proof.
  intros Hres Hd Hh Hsmall.
  rewrite cupsHashData_dispatched by assumption. unfold exec.
  rewrite (dispatch_too_small b algorithm p n) by assumption. reflexivity.
Qed.

(** A call with an identifier the build has no branch for. *)
Lemma cupsHashData_unresolved b algorithm data datalen (buf : list byte) hashsize :
  resolve b algorithm = None ->
  datalen <> 0 -> hashsize <> 0 ->
  cupsHashData B b (Some algorithm) (Some data) datalen (Some buf) hashsize
  = Some (Outcome (-1) (Some buf)
            [match b with
             | Bundled =>
                 if hashsize <? 64 then too_small_report else unknown_report
             | _ => unknown_report
             end]).
Proof.
  intros Hres Hd Hh.
  rewrite cupsHashData_dispatched by assumption. unfold exec.
  rewrite dispatch_unresolved by assumption. reflexivity.
Qed.

End DispatcherFacts.

(** *** The digest length table and the builds *)

Lemma provided_resolve b a p n :
  In (a, (p, n)) algorithms -> provides b a = true ->
  resolve b a = Some (p, n).
Proof.
  intros Hin Hprov. cbn [In algorithms] in Hin.
  repeat (destruct Hin as [Hin | Hin]; [injection Hin as <- <- <-|]);
    try contradiction;
    destruct b as [[|]| |]; try discriminate Hprov; reflexivity.
Qed.

Lemma resolve_provided b a p n :
  In (a, (p, n)) algorithms -> provides b a = false -> resolve b a = None.
Proof.
  intros Hin Hprov. cbn [In algorithms] in Hin.
  repeat (destruct Hin as [Hin | Hin]; [injection Hin as <- <- <-|]);
    try contradiction;
    destruct b as [[|]| |]; try discriminate Hprov; reflexivity.
Qed.

Lemma table_size a p n : In (a, (p, n)) algorithms -> 0 < n <= 64.
Proof.
  intros Hin. cbn [In algorithms] in Hin.
  repeat (destruct Hin as [Hin | Hin]; [injection Hin as <- <- <-; lia|]).
  contradiction.
Qed.

Lemma unlisted_resolve b a :
  (forall p n, ~ In (a, (p, n)) algorithms) -> resolve b a = None.
Proof.
  intros Hout.
  assert (Hne : forall x p n, In (x, (p, n)) algorithms -> same a x = false).
  { intros x p n Hin. apply String.eqb_neq. intros ->. exact (Hout p n Hin). }
  assert (H1 := Hne "md5"%string MD5 16 ltac:(cbn; tauto)).
  assert (H2 := Hne "sha"%string SHA1 20 ltac:(cbn; tauto)).
  assert (H3 := Hne "sha2-224"%string SHA224 28 ltac:(cbn; tauto)).
  assert (H4 := Hne "sha2-256"%string SHA256 32 ltac:(cbn; tauto)).
  assert (H5 := Hne "sha2-384"%string SHA384 48 ltac:(cbn; tauto)).
  assert (H6 := Hne "sha2-512"%string SHA512 64 ltac:(cbn; tauto)).
  assert (H7 := Hne "sha2-512_224"%string SHA512 28 ltac:(cbn; tauto)).
  assert (H8 := Hne "sha2-512_256"%string SHA512 32 ltac:(cbn; tauto)).
  destruct b as [sha224| |]; unfold resolve, gnutls_select;
    rewrite ?H1, ?H2, ?H3, ?H4, ?H5, ?H6, ?H7, ?H8, ?andb_false_r;
    reflexivity.
Qed.

(** *** The bytes that reach the primitive *)

(** A length up to [INT_MAX] passes every conversion unchanged. *)
Lemma handed_whole b p datalen :
  0 <= datalen <= INT_MAX -> handed b p datalen = datalen.
Proof.
  unfold INT_MAX, handed, CC_LONG, int. intros H.
  destruct b, p; try reflexivity;
    solve [ apply Z.mod_small; lia
          | rewrite Z.mod_small by lia; lia ].
Qed.

(** [gnutls_hash_fast] gets the length as it is. *)
Lemma handed_gnutls p datalen : p <> MD5 -> handed GnuTLS p datalen = datalen.
Proof. destruct p; [contradiction|reflexivity..]. Qed.

(** The conversion to [CC_LONG] drops the bits from 32 upwards: of an input
    of 4 GiB and three bytes, CommonCrypto hashes the first three bytes. *)
Example handed_wraps : handed (CommonCrypto true) SHA1 (2 ^ 32 + 3) = 3.
Proof. reflexivity. Qed.

Lemma common_crypto_long_input B sha224 data (buf : list byte) :
  2 ^ 32 + 3 <= Z.of_nat (length data) ->
  20 <= Z.of_nat (length buf) ->
  cupsHashData B (CommonCrypto sha224) (Some "sha"%string) (Some data)
    (2 ^ 32 + 3) (Some buf) 20
  = Some (Outcome 20 (Some (written (digest B SHA1 (take 3 data)) 20 buf))
            [Digest SHA1 (take 3 data)]).
Proof.
  intros Hdata Hbuf.
  apply (cupsHashData_digest B (CommonCrypto sha224) "sha" SHA1 20);
    [reflexivity | lia | lia].
Qed.

(** *** The buffer after a digest *)

Lemma written_take (md buf : list byte) n :
  0 <= n <= Z.of_nat (length md) ->
  take (Z.to_nat n) (written md n buf) = take (Z.to_nat n) md.
Proof.
  intros Hn. unfold written.
  rewrite take_app_le by (rewrite length_take; lia).
  rewrite take_take. f_equal. lia.
Qed.

Lemma written_drop (md buf : list byte) n :
  0 <= n <= Z.of_nat (length md) ->
  drop (Z.to_nat n) (written md n buf) = drop (Z.to_nat n) buf.
Proof.
  intros Hn. unfold written.
  rewrite drop_app_length'; [reflexivity|]. rewrite length_take. lia.
Qed.

Lemma written_length (md buf : list byte) n :
  0 <= n <= Z.of_nat (length md) ->
  n <= Z.of_nat (length buf) ->
  length (written md n buf) = length buf.
Proof.
  intros Hn Hbuf. unfold written.
  rewrite length_app, length_take, length_drop. lia.
Qed.

Lemma table_fits a p n : In (a, (p, n)) algorithms -> 0 < n <= digest_size p.
Proof.
  intros Hin. cbn [In algorithms] in Hin.
  repeat (destruct Hin as [Hin | Hin]; [injection Hin as <- <- <-; cbn; lia|]).
  contradiction.
Qed.

(** * The claims about cupsHashData *)

(** The digest of the whole input, for an identifier of the table. *)
Lemma digest_of_provided_success B b a p n data datalen (buf : list byte) hashsize :
  In (a, (p, n)) algorithms ->
  provides b a = true ->
  0 < datalen <= Z.of_nat (length data) ->
  handed b p datalen = datalen ->
  n <= hashsize <= Z.of_nat (length buf) ->
  let input := take (Z.to_nat datalen) data in
  cupsHashData B b (Some a) (Some data) datalen (Some buf) hashsize
  = Some (Outcome n (Some (written (digest B p input) n buf)) [Digest p input]).
Proof.
  intros Hin Hprov Hdata Hwhole Hbuf input. subst input.
  rewrite <- Hwhole at 2 3.
  apply cupsHashData_digest; auto using provided_resolve.
Qed.

(** C1, as amended. For every identifier of the digest length table that the
    build has a branch for, a call with data of a length that the length
    parameter of the primitive holds and a buffer of at least the canonical
    length returns that length; the leading bytes of the buffer, as many as
    the canonical length, are those of the digest of the whole input as the
    primitive of that identifier computes it, the rest of the buffer is as
    it was, and the primitive ran once, over the input. *)
Theorem digest_of_provided_algorithm B b a p n data datalen (buf : list byte) hashsize :
  In (a, (p, n)) algorithms ->
  provides b a = true ->
  0 < datalen <= Z.of_nat (length data) ->
  handed b p datalen = datalen ->
  n <= hashsize <= Z.of_nat (length buf) ->
  let input := take (Z.to_nat datalen) data in
  exists m,
    cupsHashData B b (Some a) (Some data) datalen (Some buf) hashsize
    = Some (Outcome n (Some m) [Digest p input])
    /\ take (Z.to_nat n) m = take (Z.to_nat n) (digest B p input)
    /\ drop (Z.to_nat n) m = drop (Z.to_nat n) buf
    /\ length m = length buf.
Proof.
  intros Hin Hprov Hdata Hwhole Hbuf input. subst input.
  pose proof (table_fits a p n Hin) as Hn.
  pose proof (digest_length B p (take (Z.to_nat datalen) data)) as Hmd.
  eexists. split; [apply digest_of_provided_success; assumption|].
  split; [apply written_take; lia|].
  split; [apply written_drop; lia | apply written_length; lia].
Qed.

Lemma digest_of_provided_algorithm_witness :
  exists m,
    cupsHashData reference GnuTLS (Some "sha2-256"%string) (Some abc) 3
      (Some (repeat x2a 40)) 40
    = Some (Outcome 32 (Some m) [Digest SHA256 (take (Z.to_nat 3) abc)])
    /\ take (Z.to_nat 32) m
       = take (Z.to_nat 32) (digest reference SHA256 (take (Z.to_nat 3) abc))
    /\ drop (Z.to_nat 32) m = drop (Z.to_nat 32) (repeat x2a 40)
    /\ length m = length (repeat x2a 40).
Proof.
  apply (digest_of_provided_algorithm reference GnuTLS "sha2-256" SHA256 32
           abc 3 (repeat x2a 40) 40).
  - cbn. tauto.
  - reflexivity.
  - cbn. lia.
  - reflexivity.
  - cbn. lia.
Defined.

(** C1, as stated, fails in the build without CommonCrypto and GNU TLS: the
    identifier sha is in the table with length 20, and the call fails. *)
Lemma sha_in_bundled_build :
  In ("sha"%string, (SHA1, 20)) algorithms
  /\ cupsHashData reference Bundled (Some "sha"%string) (Some abc) 3
       (Some (repeat x00 64)) 64
     = Some (Outcome (-1) (Some (repeat x00 64)) [unknown_report]).
Proof. split; [cbn; tauto | reflexivity]. Qed.

(** C3, as amended. In a build that has the branch, and for data of a length
    that the length parameter of SHA-512 holds, sha2-512_224 returns 28 and
    sha2-512_256 returns 32; the bytes stored are the leading bytes of what
    sha2-512 stores for the same input, the bytes of the buffer from the
    truncated length on are the ones it held before the call, and SHA-512
    ran once. *)
Theorem truncated_sha512 B b a n data datalen
    (buf64 : list byte) hashsize64 (buf : list byte) hashsize :
  In (a, n) [("sha2-512_224"%string, 28); ("sha2-512_256"%string, 32)] ->
  provides b a = true ->
  0 < datalen <= Z.of_nat (length data) ->
  handed b SHA512 datalen = datalen ->
  64 <= hashsize64 <= Z.of_nat (length buf64) ->
  n <= hashsize <= Z.of_nat (length buf) ->
  let input := take (Z.to_nat datalen) data in
  exists full short,
    cupsHashData B b (Some "sha2-512"%string) (Some data) datalen
      (Some buf64) hashsize64
    = Some (Outcome 64 (Some full) [Digest SHA512 input])
    /\ cupsHashData B b (Some a) (Some data) datalen (Some buf) hashsize
       = Some (Outcome n (Some short) [Digest SHA512 input])
    /\ take (Z.to_nat n) short = take (Z.to_nat n) full
    /\ drop (Z.to_nat n) short = drop (Z.to_nat n) buf
    /\ length short = length buf.
Proof.
  intros Hin Hprov Hdata Hwhole Hbuf64 Hbuf input.
  assert (Hb : provides b "sha2-512" = true)
    by (destruct b as [[|]| |]; cbn [In] in Hin;
        destruct Hin as [[= <- <-] | [[= <- <-] | []]];
        try discriminate Hprov; reflexivity).
  assert (Htab : In (a, (SHA512, n)) algorithms)
    by (cbn [In] in Hin; destruct Hin as [[= <- <-] | [[= <- <-] | []]];
        cbn; tauto).
  assert (Hn : 0 < n <= 64) by (eapply table_size; eassumption).
  eexists. eexists. split.
  { apply (digest_of_provided_success B b "sha2-512" SHA512 64);
      auto; cbn; tauto. }
  split.
  { apply (digest_of_provided_success B b a SHA512 n); auto. }
  fold input. set (md := digest B SHA512 input).
  assert (Hmd : Z.of_nat (length md) = 64)
    by apply (digest_length B SHA512 input).
  split; [|split].
  - rewrite written_take by lia.
    unfold written. rewrite take_app_le by (rewrite length_take; lia).
    rewrite take_take. f_equal. lia.
  - apply written_drop. lia.
  - apply written_length; lia.
Qed.

Lemma truncated_sha512_witness :
  exists full short,
    cupsHashData reference GnuTLS (Some "sha2-512"%string) (Some abc) 3
      (Some (repeat x00 64)) 64
    = Some (Outcome 64 (Some full) [Digest SHA512 (take (Z.to_nat 3) abc)])
    /\ cupsHashData reference GnuTLS (Some "sha2-512_224"%string) (Some abc) 3
         (Some (repeat xff 30)) 30
       = Some (Outcome 28 (Some short) [Digest SHA512 (take (Z.to_nat 3) abc)])
    /\ take (Z.to_nat 28) short = take (Z.to_nat 28) full
    /\ drop (Z.to_nat 28) short = drop (Z.to_nat 28) (repeat xff 30)
    /\ length short = length (repeat xff 30).
Proof.
  apply (truncated_sha512 reference GnuTLS "sha2-512_224" 28 abc 3
           (repeat x00 64) 64 (repeat xff 30) 30).
  - cbn. tauto.
  - reflexivity.
  - cbn. lia.
  - reflexivity.
  - cbn. lia.
  - cbn. lia.
Defined.

(** C3, as stated, fails in the build without CommonCrypto and GNU TLS. *)
Lemma sha2_512_224_in_bundled_build :
  cupsHashData reference Bundled (Some "sha2-512_224"%string) (Some abc) 3
    (Some (repeat x00 28)) 28
  = Some (Outcome (-1) (Some (repeat x00 28)) [too_small_report]).
Proof. reflexivity. Qed.

(** C4, as amended. For every identifier of the digest length table, a call
    with a buffer of a capacity below the canonical length returns -1,
    leaves the buffer as it was, runs no digest primitive and reports one
    failure. With the other arguments valid, the failure is "Hash buffer too
    small." in every build that has a branch for the identifier and in the
    build without CommonCrypto and GNU TLS; a CommonCrypto build that lacks
    the branch of the identifier reports "Unknown hash algorithm."
    instead. *)
Theorem small_buffer_refused B b a p n data datalen (buf : list byte) hashsize :
  In (a, (p, n)) algorithms ->
  hashsize < n ->
  exists report,
    cupsHashData B b (Some a) data datalen (Some buf) hashsize
    = Some (Outcome (-1) (Some buf) [report])
    /\ digests [report] = 0%nat
    /\ reports [report] = 1%nat
    /\ (data <> None -> datalen <> 0 -> hashsize <> 0 ->
        provides b a = true \/ b = Bundled ->
        report = too_small_report)
    /\ (data <> None -> datalen <> 0 -> hashsize <> 0 ->
        provides b a = false -> b <> Bundled ->
        report = unknown_report).
Proof.
  intros Hin Hsmall.
  destruct (bad_arguments (Some a) data datalen (Some buf) hashsize) eqn:Hbad.
  { exists bad_arguments_report. split; [apply cupsHashData_rejected; assumption|].
    do 2 (split; [reflexivity|]).
    apply bad_arguments_spec in Hbad.
    split; intros Hd Hl Hh; exfalso;
      destruct Hbad as [H | [H | [H | [H | H]]]]; congruence. }
  assert (Hvalid : exists d, data = Some d /\ datalen <> 0 /\ hashsize <> 0).
  { destruct data as [d|]; [|discriminate Hbad]. exists d.
    unfold bad_arguments in Hbad. cbn [is_null orb] in Hbad.
    apply orb_false_iff in Hbad. destruct Hbad as [Hl Hh].
    rewrite orb_false_r in Hl. apply Z.eqb_neq in Hl, Hh. auto. }
  destruct Hvalid as (d & -> & Hl & Hh).
  destruct (provides b a) eqn:Hprov.
  - exists too_small_report. split.
    { apply (cupsHashData_too_small B b a p n); auto using provided_resolve. }
    do 3 (split; [auto|]). intros _ _ _ Hno. discriminate Hno.
  - rewrite (cupsHashData_unresolved B b a)
      by eauto using resolve_provided.
    pose proof (table_size a p n Hin) as Hn.
    destruct b as [sha224| |].
    + exists unknown_report. do 3 (split; [reflexivity|]).
      split; [intros _ _ _ [H | H]; discriminate | reflexivity].
    + discriminate Hprov.
    + exists too_small_report.
      destruct (Z.ltb_spec hashsize 64); [|lia].
      do 3 (split; [auto|]). split; [auto|].
      intros _ _ _ _ Hb. contradiction.
Qed.

Lemma small_buffer_refused_witness :
  cupsHashData reference GnuTLS (Some "sha"%string) (Some abc) 3
    (Some (repeat x2a 19)) 19
  = Some (Outcome (-1) (Some (repeat x2a 19)) [too_small_report]).
Proof.
  destruct (small_buffer_refused reference GnuTLS "sha" SHA1 20 (Some abc) 3
              (repeat x2a 19) 19)
    as (report & Hcall & _ & _ & Hreport & _); [cbn; tauto | lia |].
  rewrite Hcall, Hreport;
    [reflexivity | discriminate | lia | lia | left; reflexivity].
Defined.

(** C4, as stated, fails in a CommonCrypto build without
    [CC_SHA224_DIGEST_LENGTH]: sha2-224 is in the table with length 28, and
    with a buffer of 27 bytes the failure reported is the unknown algorithm,
    not the small buffer. *)
Lemma sha2_224_one_byte_short_without_branch :
  In ("sha2-224"%string, (SHA224, 28)) algorithms
  /\ cupsHashData reference (CommonCrypto false) (Some "sha2-224"%string)
       (Some abc) 3 (Some (repeat x2a 27)) 27
     = Some (Outcome (-1) (Some (repeat x2a 27)) [unknown_report])
  /\ unknown_report <> too_small_report.
Proof. split; [cbn; tauto | split; [reflexivity | discriminate]]. Qed.

(** C5. When the algorithm pointer is null, the data pointer is null, the
    data length is zero, the hash pointer is null or the hash size is zero,
    cupsHashData returns -1 after reporting "Bad arguments to function":
    whatever the identifier, no primitive runs, no other failure is
    reported and the buffer, if there is one, is as it was. *)
Theorem bad_arguments_refused B b algorithm data datalen hash hashsize :
  algorithm = None \/ data = None \/ datalen = 0 \/ hash = None
  \/ hashsize = 0 ->
  cupsHashData B b algorithm data datalen hash hashsize
  = Some (Outcome (-1) hash [bad_arguments_report]).
Proof.
  intros Hbad. apply cupsHashData_rejected, bad_arguments_spec, Hbad.
Qed.

Lemma bad_arguments_refused_witness :
  cupsHashData reference GnuTLS (Some "md5"%string) (Some abc) 0
    (Some (repeat x2a 16)) 16
  = Some (Outcome (-1) (Some (repeat x2a 16)) [bad_arguments_report]).
Proof.
  apply (bad_arguments_refused reference GnuTLS (Some "md5"%string) (Some abc)
           0 (Some (repeat x2a 16)) 16).
  right. right. left. reflexivity.
Defined.

(** C6, as amended. For an identifier that is not in the digest length table
    and valid other arguments, cupsHashData returns -1 and leaves the buffer
    as it was, without running a primitive. The failure reported is "Unknown
    hash algorithm." for every buffer size in the CommonCrypto and GNU TLS
    builds; in the build with neither it is so for a size of 64 or more, and
    "Hash buffer too small." below. *)
Theorem unknown_algorithm_refused B b a data datalen (buf : list byte) hashsize :
  (forall p n, ~ In (a, (p, n)) algorithms) ->
  datalen <> 0 -> hashsize <> 0 ->
  cupsHashData B b (Some a) (Some data) datalen (Some buf) hashsize
  = Some (Outcome (-1) (Some buf)
            [match b with
             | Bundled =>
                 if hashsize <? 64 then too_small_report else unknown_report
             | _ => unknown_report
             end]).
Proof.
  intros Hout Hl Hh.
  apply cupsHashData_unresolved; auto using unlisted_resolve.
Qed.

Lemma unknown_algorithm_refused_witness :
  cupsHashData reference GnuTLS (Some "MD5"%string) (Some abc) 3
    (Some (repeat x2a 16)) 16
  = Some (Outcome (-1) (Some (repeat x2a 16)) [unknown_report]).
Proof.
  apply (unknown_algorithm_refused reference GnuTLS "MD5" abc 3
           (repeat x2a 16) 16).
  - intros p n Hin. cbn in Hin.
    repeat (destruct Hin as [Hin | Hin]; [discriminate Hin|]). contradiction.
  - lia.
  - lia.
Defined.

(** C6, as stated, fails in the build without CommonCrypto and GNU TLS: with
    a buffer of 32 bytes the unknown identifier is reported as a buffer that
    is too small. *)
Lemma unknown_algorithm_in_bundled_build :
  cupsHashData reference Bundled (Some "not-a-real-algorithm"%string)
    (Some abc) 3 (Some (repeat x2a 32)) 32
  = Some (Outcome (-1) (Some (repeat x2a 32)) [too_small_report])
  /\ too_small_report <> unknown_report.
Proof. split; [reflexivity | discriminate]. Qed.

(** C8, as amended. In the CommonCrypto and GNU TLS builds, with SHA-1 as
    FIPS 180-4 defines it, hashing the three bytes of "abc" with the
    identifier sha into a buffer of 20 bytes returns 20, and cupsHashString
    turns the digest into the string of 40 characters
    a9993e364706816aba3e25717850c26c9cd0d89d. *)
Theorem sha_abc b (buf sbuf : list byte) bufsize :
  b <> Bundled ->
  length buf = 20%nat ->
  41 <= bufsize <= Z.of_nat (length sbuf) ->
  exists md m,
    cupsHashData reference b (Some "sha"%string) (Some abc) 3 (Some buf) 20
    = Some (Outcome 20 (Some md) [Digest SHA1 abc])
    /\ cupsHashString (Some md) 20 (Some sbuf) bufsize
       = Some (Outcome BUFFER (Some m) [])
    /\ c_string m
       = list_byte_of_string "a9993e364706816aba3e25717850c26c9cd0d89d"
    /\ length (c_string m) = 40%nat.
Proof.
  intros Hb Hbuf Hsbuf.
  assert (Hmd : written (digest reference SHA1 abc) 20 buf
                = digest reference SHA1 abc).
  { unfold written. rewrite drop_ge by lia. rewrite app_nil_r.
    apply take_ge. rewrite digest_nat_length. cbn. lia. }
  exists (digest reference SHA1 abc). eexists. split; [|split].
  - rewrite <- Hmd at 1.
    apply (digest_of_provided_success reference b "sha" SHA1 20 abc 3);
      [cbn; tauto | destruct b as [[|]| |]; [reflexivity..|contradiction]
      | cbn; lia | destruct b as [[|]| |]; reflexivity | lia].
  - apply cupsHashString_defined;
      [rewrite digest_nat_length; cbn; lia | unfold SIZE_MAX; lia | lia].
  - rewrite c_string_to_hex.
    rewrite take_ge by (rewrite digest_nat_length; cbn; lia).
    split; [vm_compute; reflexivity|].
    rewrite to_hex_length, digest_nat_length. reflexivity.
Qed.

Lemma sha_abc_witness :
  exists md m,
    cupsHashData reference GnuTLS (Some "sha"%string) (Some abc) 3
      (Some (repeat x00 20)) 20
    = Some (Outcome 20 (Some md) [Digest SHA1 abc])
    /\ cupsHashString (Some md) 20 (Some (repeat x00 41)) 41
       = Some (Outcome BUFFER (Some m) [])
    /\ c_string m
       = list_byte_of_string "a9993e364706816aba3e25717850c26c9cd0d89d"
    /\ length (c_string m) = 40%nat.
Proof.
  apply (sha_abc GnuTLS (repeat x00 20) (repeat x00 41) 41);
    [discriminate | reflexivity | cbn; lia].
Defined.

(** C8, as stated, names a string of 39 characters; the string that
    cupsHashString makes of the SHA-1 digest of "abc" has 40 and is another
    one. In the build without CommonCrypto and GNU TLS the call of
    cupsHashData fails. *)
Lemma sha_abc_is_not_39_characters :
  (exists md m,
     cupsHashData reference GnuTLS (Some "sha"%string) (Some abc) 3
       (Some (repeat x00 20)) 20
     = Some (Outcome 20 (Some md) [Digest SHA1 abc])
     /\ cupsHashString (Some md) 20 (Some (repeat x00 41)) 41
        = Some (Outcome BUFFER (Some m) [])
     /\ c_string m
        <> list_byte_of_string "a9993e364706816aba3e25717850c26c9cd0d89"
     /\ length (list_byte_of_string "a9993e364706816aba3e25717850c26c9cd0d89")
        = 39%nat)
  /\ cupsHashData reference Bundled (Some "sha"%string) (Some abc) 3
       (Some (repeat x00 20)) 20
     = Some (Outcome (-1) (Some (repeat x00 20)) [too_small_report]).
Proof.
  split; [|reflexivity].
  do 2 eexists. split; [vm_compute; reflexivity|].
  split; [vm_compute; reflexivity|].
  split; [vm_compute; discriminate | reflexivity].
Qed.

(** C9, as amended. cupsHashData calls [_cupsSetError] once when it fails
    (returns -1) and not at all when it succeeds (returns a positive
    length); cupsHashString never calls it, failing or not. Stated for calls
    whose pointers are null or point to objects as large as declared. *)
Theorem error_reporting B b algorithm data datalen hash hashsize
    hex_hash hex_hashsize buffer bufsize :
  (forall d, data = Some d -> 0 <= datalen <= Z.of_nat (length d)) ->
  (forall buf, hash = Some buf -> hashsize <= Z.of_nat (length buf)) ->
  0 <= hex_hashsize ->
  (forall h, hex_hash = Some h ->
     hex_hashsize <= Z.of_nat (length h) <= PTRDIFF_MAX) ->
  (forall buf, buffer = Some buf ->
     (1 <= length buf)%nat /\ bufsize <= Z.of_nat (length buf)) ->
  (exists o,
     cupsHashData B b algorithm data datalen hash hashsize = Some o
     /\ (result o = -1 /\ reports (calls o) = 1%nat
         \/ 0 < result o /\ reports (calls o) = 0%nat))
  /\ (exists o,
        cupsHashString hex_hash hex_hashsize buffer bufsize = Some o
        /\ reports (calls o) = 0%nat).
Proof.
  intros Hdata Hhash Hsize Hdigest Hbuffer. split.
  - destruct (bad_arguments algorithm data datalen hash hashsize) eqn:Hbad.
    { eexists. split; [apply cupsHashData_rejected; assumption|].
      left. split; reflexivity. }
    assert (Hvalid : ~ (algorithm = None \/ data = None \/ datalen = 0
                        \/ hash = None \/ hashsize = 0))
      by (rewrite <- bad_arguments_spec; congruence).
    destruct algorithm as [a|]; [|tauto].
    destruct data as [d|]; [|tauto].
    destruct hash as [buf|]; [|tauto].
    assert (Hl : datalen <> 0) by tauto.
    assert (Hh : hashsize <> 0) by tauto.
    specialize (Hdata d eq_refl). specialize (Hhash buf eq_refl).
    destruct (resolve b a) as [[p n]|] eqn:Hres.
    + destruct (Z.ltb_spec hashsize n).
      * eexists. split; [eapply cupsHashData_too_small; eassumption|].
        left. split; reflexivity.
      * eexists. split; [eapply cupsHashData_digest; [eassumption|lia..]|].
        right. split; [|reflexivity].
        apply resolve_size in Hres. cbn [result]. lia.
    + eexists. split; [apply cupsHashData_unresolved; assumption|].
      left. split; [reflexivity|].
      destruct b; [reflexivity..|]. destruct (hashsize <? 64); reflexivity.
  - destruct (cupsHashString_outcome hex_hash hex_hashsize buffer bufsize)
      as (r & m & Ho); auto.
    rewrite Ho. eexists. split; reflexivity.
Qed.

Lemma error_reporting_witness :
  (exists o,
     cupsHashData reference GnuTLS (Some "md5"%string) (Some abc) 3
       (Some (repeat x00 16)) 16 = Some o
     /\ (result o = -1 /\ reports (calls o) = 1%nat
         \/ 0 < result o /\ reports (calls o) = 0%nat))
  /\ (exists o,
        cupsHashString (Some [x01]) 1 (Some [x2a; x2a]) 2 = Some o
        /\ reports (calls o) = 0%nat).
Proof.
  apply (error_reporting reference GnuTLS (Some "md5"%string) (Some abc) 3
           (Some (repeat x00 16)) 16 (Some [x01]) 1 (Some [x2a; x2a]) 2).
  - intros d [= <-]. cbn. lia.
  - intros buf [= <-]. cbn. lia.
  - lia.
  - intros h [= <-]. unfold PTRDIFF_MAX. cbn. lia.
  - intros buf [= <-]. cbn. lia.
Defined.

(** C9, as stated, fails for cupsHashString: a buffer one character short
    makes it fail, and it reports nothing. *)
Lemma hex_failure_is_not_reported :
  cupsHashString (Some [x01]) 1 (Some [x2a; x2a]) 2
  = Some (Outcome NULL (Some [x00; x2a]) [])
  /\ reports [] = 0%nat.
Proof. split; reflexivity. Qed.

(** * Further properties of cupsHashData *)

Lemma resolve_fits b algorithm p n :
  resolve b algorithm = Some (p, n) -> 16 <= n <= digest_size p.
Proof.
  intros Hres. destruct b as [sha224| |]; unfold resolve in Hres.
  - repeat match type of Hres with
           | context [same algorithm ?x] => destruct (same algorithm x)
           | context [sha224 && _] => destruct sha224; cbn [andb] in Hres
           end;
      try discriminate; injection Hres as <- <-; cbn; lia.
  - destruct (same algorithm "md5"); [injection Hres as <- <-; cbn; lia|].
    unfold gnutls_select in Hres.
    repeat match type of Hres with
           | context [same algorithm ?x] => destruct (same algorithm x)
           end;
      cbn in Hres; try discriminate; injection Hres as <- <-; cbn; lia.
  - destruct (same algorithm "md5"); [|discriminate].
    injection Hres as <- <-. cbn. lia.
Qed.

(** The four ways a call with sound pointers can go. *)
Lemma cupsHashData_cases B b algorithm data datalen hash hashsize :
  (forall d, data = Some d -> 0 <= datalen <= Z.of_nat (length d)) ->
  (forall buf, hash = Some buf -> hashsize <= Z.of_nat (length buf)) ->
  cupsHashData B b algorithm data datalen hash hashsize
  = Some (Outcome (-1) hash [bad_arguments_report])
  \/ exists a d (buf : list byte),
       algorithm = Some a /\ data = Some d /\ hash = Some buf
       /\ datalen <> 0 /\ hashsize <> 0
       /\ ((exists p n,
              resolve b a = Some (p, n) /\ hashsize < n
              /\ cupsHashData B b algorithm data datalen hash hashsize
                 = Some (Outcome (-1) (Some buf) [too_small_report]))
           \/ (exists p n,
                 resolve b a = Some (p, n) /\ n <= hashsize
                 /\ cupsHashData B b algorithm data datalen hash hashsize
                    = Some (Outcome n
                              (Some (written
                                       (digest B p
                                          (take (Z.to_nat (handed b p datalen)) d))
                                       n buf))
                              [Digest p (take (Z.to_nat (handed b p datalen)) d)]))
           \/ (resolve b a = None
               /\ cupsHashData B b algorithm data datalen hash hashsize
                  = Some (Outcome (-1) (Some buf)
                            [match b with
                             | Bundled =>
                                 if hashsize <? 64 then too_small_report
                                 else unknown_report
                             | _ => unknown_report
                             end]))).
Proof.
  intros Hdata Hhash.
  destruct (bad_arguments algorithm data datalen hash hashsize) eqn:Hbad.
  { left. apply cupsHashData_rejected. assumption. }
  right.
  assert (Hvalid : ~ (algorithm = None \/ data = None \/ datalen = 0
                      \/ hash = None \/ hashsize = 0))
    by (rewrite <- bad_arguments_spec; congruence).
  destruct algorithm as [a|]; [|tauto].
  destruct data as [d|]; [|tauto].
  destruct hash as [buf|]; [|tauto].
  assert (Hl : datalen <> 0) by tauto.
  assert (Hh : hashsize <> 0) by tauto.
  specialize (Hdata d eq_refl). specialize (Hhash buf eq_refl).
  exists a, d, buf. do 5 (split; [reflexivity || assumption|]).
  destruct (resolve b a) as [[p n]|] eqn:Hres.
  - destruct (Z.ltb_spec hashsize n).
    + left. exists p, n. do 2 (split; [reflexivity || assumption|]).
      eapply cupsHashData_too_small; eassumption.
    + right. left. exists p, n. do 2 (split; [reflexivity || assumption|]).
      apply cupsHashData_digest; [assumption | lia | lia].
  - right. right. split; [reflexivity|].
    apply cupsHashData_unresolved; assumption.
Qed.

(** X1. A call whose pointers are null or point to objects as large as
    declared stays inside them: it has an outcome, the hash buffer keeps its
    length, and its bytes from index [hashsize] on, and from index 64 on,
    keep their values. *)
Theorem hash_buffer_bounds B b algorithm data datalen (buf : list byte) hashsize :
  (forall d, data = Some d -> 0 <= datalen <= Z.of_nat (length d)) ->
  0 <= hashsize <= Z.of_nat (length buf) ->
  exists r m t,
    cupsHashData B b algorithm data datalen (Some buf) hashsize
    = Some (Outcome r (Some m) t)
    /\ length m = length buf
    /\ drop (Z.to_nat hashsize) m = drop (Z.to_nat hashsize) buf
    /\ drop 64 m = drop 64 buf.
Proof.
  intros Hdata Hhash.
  destruct (cupsHashData_cases B b algorithm data datalen (Some buf) hashsize)
    as [Hc | (a & d & buf' & -> & -> & [= <-] & Hl & Hh & Hc)];
    [assumption | intros ? [= <-]; lia | eauto 8 | ].
  destruct Hc as [(p & n & _ & _ & Hc) | [(p & n & Hres & Hn & Hc)
                                          | (_ & Hc)]]; [eauto 8 | | eauto 8].
  pose proof (resolve_fits _ _ _ _ Hres) as Hfit.
  pose proof (resolve_size _ _ _ _ Hres) as Hsize.
  set (md := digest B p _) in Hc.
  pose proof (digest_length B p (take (Z.to_nat (handed b p datalen)) d)) as Hmd.
  fold md in Hmd.
  do 3 eexists. split; [exact Hc|]. split; [apply written_length; lia|].
  split.
  - replace (Z.to_nat hashsize)
      with (Z.to_nat n + (Z.to_nat hashsize - Z.to_nat n))%nat by lia.
    rewrite <- !drop_drop. f_equal. apply written_drop. lia.
  - replace 64%nat with (Z.to_nat n + (64 - Z.to_nat n))%nat by lia.
    rewrite <- !drop_drop. f_equal. apply written_drop. lia.
Qed.

Lemma hash_buffer_bounds_witness :
  exists r m t,
    cupsHashData reference GnuTLS (Some "sha"%string) (Some abc) 3
      (Some (repeat x2a 70)) 30
    = Some (Outcome r (Some m) t)
    /\ length m = length (repeat x2a 70)
    /\ drop (Z.to_nat 30) m = drop (Z.to_nat 30) (repeat x2a 70)
    /\ drop 64 m = drop 64 (repeat x2a 70).
Proof.
  apply (hash_buffer_bounds reference GnuTLS (Some "sha"%string) (Some abc) 3
           (repeat x2a 70) 30).
  - intros d [= <-]. cbn. lia.
  - cbn. lia.
Defined.

(** X2. A call with sound pointers either fails or succeeds as a whole. When
    it returns -1 the hash buffer is as it was and no primitive has run;
    otherwise it returns a length between 16 and 64 that fits the declared
    capacity, exactly one primitive has run and nothing is reported. *)
Theorem all_or_nothing B b algorithm data datalen hash hashsize :
  (forall d, data = Some d -> 0 <= datalen <= Z.of_nat (length d)) ->
  (forall buf, hash = Some buf -> hashsize <= Z.of_nat (length buf)) ->
  exists o,
    cupsHashData B b algorithm data datalen hash hashsize = Some o
    /\ (result o = -1 /\ memory o = hash /\ digests (calls o) = 0%nat
        \/ 16 <= result o <= 64 /\ result o <= hashsize
           /\ digests (calls o) = 1%nat /\ reports (calls o) = 0%nat).
Proof.
  intros Hdata Hhash.
  destruct (cupsHashData_cases B b algorithm data datalen hash hashsize Hdata Hhash)
    as [Hc | (a & d & buf & -> & -> & -> & Hl & Hh & Hc)].
  { eexists. split; [exact Hc|]. left. repeat split. }
  destruct Hc as [(p & n & _ & _ & Hc) | [(p & n & Hres & Hn & Hc)
                                          | (_ & Hc)]];
    (eexists; split; [exact Hc|]).
  - left. repeat split.
  - right. pose proof (resolve_fits _ _ _ _ Hres).
    pose proof (resolve_size _ _ _ _ Hres). cbn. repeat split; lia.
  - left. cbn [result memory calls]. do 2 (split; [reflexivity|]).
    destruct b; [reflexivity..|]. destruct (hashsize <? 64); reflexivity.
Qed.

Lemma all_or_nothing_witness :
  exists o,
    cupsHashData reference (CommonCrypto true) (Some "sha2-384"%string)
      (Some abc) 3 (Some (repeat x2a 47)) 47 = Some o
    /\ (result o = -1 /\ memory o = Some (repeat x2a 47)
        /\ digests (calls o) = 0%nat
        \/ 16 <= result o <= 64 /\ result o <= 47
           /\ digests (calls o) = 1%nat /\ reports (calls o) = 0%nat).
Proof.
  apply (all_or_nothing reference (CommonCrypto true) (Some "sha2-384"%string)
           (Some abc) 3 (Some (repeat x2a 47)) 47).
  - intros d [= <-]. cbn. lia.
  - intros buf [= <-]. cbn. lia.
Defined.

(** X3. A buffer of 64 bytes is enough for every identifier, as the
    documentation of the function says: with valid arguments and a declared
    capacity of at least 64 no build reports "Hash buffer too small."; the
    call succeeds or reports "Unknown hash algorithm.". *)
Theorem sixty_four_bytes_suffice B b a data datalen (buf : list byte) hashsize :
  0 < datalen <= Z.of_nat (length data) ->
  64 <= hashsize <= Z.of_nat (length buf) ->
  exists o,
    cupsHashData B b (Some a) (Some data) datalen (Some buf) hashsize = Some o
    /\ (0 < result o /\ reports (calls o) = 0%nat
        \/ o = Outcome (-1) (Some buf) [unknown_report]).
Proof.
  intros Hdata Hbuf.
  destruct (resolve b a) as [[p n]|] eqn:Hres.
  - pose proof (resolve_size _ _ _ _ Hres).
    eexists. split; [apply (cupsHashData_digest B b a p n); auto; lia|].
    left. cbn. split; [lia | reflexivity].
  - eexists. split; [apply cupsHashData_unresolved; auto; lia|].
    right. destruct b; try reflexivity.
    destruct (Z.ltb_spec hashsize 64); [lia | reflexivity].
Qed.

Lemma sixty_four_bytes_suffice_witness :
  exists o,
    cupsHashData reference Bundled (Some "sha2-512"%string) (Some abc) 3
      (Some (repeat x2a 64)) 64 = Some o
    /\ (0 < result o /\ reports (calls o) = 0%nat
        \/ o = Outcome (-1) (Some (repeat x2a 64)) [unknown_report]).
Proof.
  apply (sixty_four_bytes_suffice reference Bundled "sha2-512" abc 3
           (repeat x2a 64) 64); cbn; lia.
Defined.

(** The CommonCrypto arm with all its branches and the GNU TLS arm are the
    same computation on lengths that fit an [int]. *)
Lemma dispatch_agree B a data datalen hashsize :
  0 <= datalen <= INT_MAX ->
  dispatch B (CommonCrypto true) a data datalen hashsize
  = dispatch B GnuTLS a data datalen hashsize.
Proof.
  unfold INT_MAX. intros Hl. cbn [dispatch].
  assert (Hcc : CC_LONG datalen = datalen)
    by (unfold CC_LONG; apply Z.mod_small; lia).
  assert (Hint : int datalen = datalen)
    by (unfold int; rewrite Z.mod_small by lia; lia).
  unfold common_crypto, gnutls, gnutls_select, bundled_md5, _cupsMD5,
    cc_direct, cc_truncated, CC.
  rewrite Hcc, Hint. cbn [andb].
  destruct (same a "md5").
  { destruct (Z.leb_spec datalen 0); [|reflexivity].
    replace datalen with 0 by lia. reflexivity. }
  repeat match goal with
         | |- context [same a ?x] => destruct (same a x)
         end;
    reflexivity.
Qed.

(** X4. The CommonCrypto build (with its SHA-224 branches) and the GNU TLS
    build are interchangeable: for a data length up to INT_MAX they give the
    same outcome on the same arguments, whatever these are. *)
Theorem builds_agree B algorithm data datalen hash hashsize :
  0 <= datalen <= INT_MAX ->
  cupsHashData B (CommonCrypto true) algorithm data datalen hash hashsize
  = cupsHashData B GnuTLS algorithm data datalen hash hashsize.
Proof.
  intros Hl. unfold cupsHashData, HashData.body.
  destruct (bad_arguments algorithm data datalen hash hashsize);
    [reflexivity|].
  rewrite dispatch_agree by assumption. reflexivity.
Qed.

Lemma builds_agree_witness :
  cupsHashData reference (CommonCrypto true) (Some "sha2-512_256"%string)
    (Some abc) 3 (Some (repeat x2a 40)) 40
  = cupsHashData reference GnuTLS (Some "sha2-512_256"%string)
      (Some abc) 3 (Some (repeat x2a 40)) 40.
Proof.
  apply (builds_agree reference (Some "sha2-512_256"%string) (Some abc) 3
           (Some (repeat x2a 40)) 40).
  unfold INT_MAX. lia.
Defined.

(** X5. In the build without CommonCrypto and GNU TLS every identifier other
    than md5 fails, also those of the digest length table: the call returns
    -1, leaves the buffer as it was and runs nothing; which failure it
    reports depends on the capacity alone, "Hash buffer too small." below
    64 bytes and "Unknown hash algorithm." from 64 bytes on. *)
Theorem bundled_build_only_md5 B a data datalen (buf : list byte) hashsize :
  a <> "md5"%string ->
  datalen <> 0 -> hashsize <> 0 ->
  cupsHashData B Bundled (Some a) (Some data) datalen (Some buf) hashsize
  = Some (Outcome (-1) (Some buf)
            [if hashsize <? 64 then too_small_report else unknown_report]).
Proof.
  intros Ha Hl Hh.
  apply (cupsHashData_unresolved B Bundled); [|assumption..].
  unfold resolve, same. apply String.eqb_neq in Ha. rewrite Ha. reflexivity.
Qed.

Lemma bundled_build_only_md5_witness :
  cupsHashData reference Bundled (Some "sha2-256"%string) (Some abc) 3
    (Some (repeat x2a 64)) 64
  = Some (Outcome (-1) (Some (repeat x2a 64))
            [if 64 <? 64 then too_small_report else unknown_report]).
Proof.
  apply (bundled_build_only_md5 reference "sha2-256" abc 3 (repeat x2a 64) 64);
    [discriminate | lia | lia].
Defined.

(** X6. In the CommonCrypto build the data length goes through a 32-bit
    [CC_LONG]: a successful call hashes the first [datalen mod 2^32] bytes
    of the data, which are all of them only below 4 GiB. *)
Theorem common_crypto_length B sha224 a p n data datalen (buf : list byte) hashsize :
  In (a, (p, n)) algorithms ->
  provides (CommonCrypto sha224) a = true ->
  0 < datalen <= Z.of_nat (length data) ->
  n <= hashsize <= Z.of_nat (length buf) ->
  let hashed := take (Z.to_nat (datalen mod 2 ^ 32)) data in
  cupsHashData B (CommonCrypto sha224) (Some a) (Some data) datalen
    (Some buf) hashsize
  = Some (Outcome n (Some (written (digest B p hashed) n buf))
            [Digest p hashed]).
Proof.
  intros Hin Hprov Hdata Hbuf hashed.
  apply (cupsHashData_digest B (CommonCrypto sha224) a p n);
    auto using provided_resolve.
Qed.

Lemma common_crypto_length_witness :
  cupsHashData reference (CommonCrypto false) (Some "sha2-256"%string)
    (Some abc) 2 (Some (repeat x2a 32)) 32
  = Some (Outcome 32
            (Some (written
                     (digest reference SHA256
                        (take (Z.to_nat (2 mod 2 ^ 32)) abc))
                     32 (repeat x2a 32)))
            [Digest SHA256 (take (Z.to_nat (2 mod 2 ^ 32)) abc)]).
Proof.
  apply (common_crypto_length reference false "sha2-256" SHA256 32 abc 2
           (repeat x2a 32) 32);
    [cbn; tauto | reflexivity | cbn; lia | cbn; lia].
Defined.

(** Reading [n] bytes of an object or of a prefix that holds them. *)
Lemma load_bytes_prefix (data : list byte) n k :
  n <= k <= Z.of_nat (length data) ->
  load_bytes (take (Z.to_nat k) data) n = load_bytes data n.
Proof.
  intros Hk. unfold load_bytes. rewrite length_take.
  destruct (Z.leb_spec n (Z.of_nat (length data))); [|lia].
  destruct (Z.leb_spec n (Z.of_nat (Z.to_nat k `min` length data))); [|lia].
  rewrite take_take. f_equal. f_equal. lia.
Qed.

Lemma dispatch_prefix B b a data datalen hashsize :
  0 <= datalen <= Z.of_nat (length data) ->
  dispatch B b a (take (Z.to_nat datalen) data) datalen hashsize
  = dispatch B b a data datalen hashsize.
Proof.
  intros Hl.
  pose proof (CC_LONG_range datalen ltac:(lia)) as Hcc.
  pose proof (int_range datalen ltac:(lia)) as Hint.
  assert (H0 : load_bytes (take (Z.to_nat datalen) data) 0 = load_bytes data 0)
    by (apply load_bytes_prefix; lia).
  assert (H1 : load_bytes (take (Z.to_nat datalen) data) (CC_LONG datalen)
               = load_bytes data (CC_LONG datalen))
    by (apply load_bytes_prefix; lia).
  assert (H2 : load_bytes (take (Z.to_nat datalen) data) (int datalen)
               = load_bytes data (int datalen))
    by (apply load_bytes_prefix; lia).
  assert (H3 : load_bytes (take (Z.to_nat datalen) data) datalen
               = load_bytes data datalen)
    by (apply load_bytes_prefix; lia).
  destruct b as [sha224| |]; cbn [dispatch];
    unfold common_crypto, gnutls, bundled, bundled_md5, _cupsMD5, cc_direct,
      cc_truncated, CC, gnutls_digest, gnutls_hash_fast, run;
    rewrite ?H0, ?H1, ?H2; try reflexivity.
  destruct (same a "md5"); [reflexivity|].
  destruct (gnutls_select a) as [alg tempsize].
  destruct (gnutls_primitive alg); rewrite ?H3; reflexivity.
Qed.

(** X7. cupsHashData does not look at the data beyond [datalen]: the outcome
    is the one for the first [datalen] bytes alone. *)
Theorem data_beyond_datalen_ignored B b algorithm data datalen hash hashsize :
  0 <= datalen <= Z.of_nat (length data) ->
  cupsHashData B b algorithm (Some data) datalen hash hashsize
  = cupsHashData B b algorithm (Some (take (Z.to_nat datalen) data)) datalen
      hash hashsize.
Proof.
  intros Hl. unfold cupsHashData, HashData.body, bad_arguments.
  cbn [is_null from_option].
  destruct (_ || _); [reflexivity|]. unfold id.
  rewrite dispatch_prefix by assumption. reflexivity.
Qed.

Lemma data_beyond_datalen_ignored_witness :
  cupsHashData reference GnuTLS (Some "sha"%string)
    (Some [x61; x62; x63; x64; x65]) 3 (Some (repeat x2a 20)) 20
  = cupsHashData reference GnuTLS (Some "sha"%string)
      (Some (take (Z.to_nat 3) [x61; x62; x63; x64; x65])) 3
      (Some (repeat x2a 20)) 20.
Proof.
  apply (data_beyond_datalen_ignored reference GnuTLS (Some "sha"%string)
           [x61; x62; x63; x64; x65] 3 (Some (repeat x2a 20)) 20).
  cbn. lia.
Defined.

(** * Further properties of cupsHashString *)

(** X8. A call that passes the range check converts the first [hashsize]
    bytes of the hash and no more, writes [2 * hashsize + 1] bytes and no
    more: the buffer keeps its length and its bytes from index
    [2 * hashsize + 1] on, and the string does not depend on what the buffer
    held. *)
Theorem hex_success_frame (h : list byte) hashsize (buf : list byte) bufsize :
  1 <= hashsize <= Z.of_nat (length h) ->
  2 * hashsize + 1 <= bufsize <= SIZE_MAX ->
  bufsize <= Z.of_nat (length buf) ->
  exists m,
    cupsHashString (Some h) hashsize (Some buf) bufsize
    = Some (Outcome BUFFER (Some m) [])
    /\ c_string m = to_hex (take (Z.to_nat hashsize) h)
    /\ length m = length buf
    /\ drop (Z.to_nat (2 * hashsize + 1)) m
       = drop (Z.to_nat (2 * hashsize + 1)) buf.
Proof.
  intros Hh Hsize Hbuf.
  eexists. split; [apply cupsHashString_defined; lia|].
  split; [apply c_string_to_hex|].
  assert (Hlen : length (to_hex (take (Z.to_nat hashsize) h))
                 = (2 * Z.to_nat hashsize)%nat)
    by (rewrite to_hex_length, length_take; lia).
  split.
  - rewrite length_app, Hlen. cbn [length]. rewrite length_drop. lia.
  - replace (Z.to_nat (2 * hashsize + 1))
      with (length (to_hex (take (Z.to_nat hashsize) h)) + 1)%nat by lia.
    rewrite <- (drop_drop (_ ++ _)), drop_app_length, Hlen.
    reflexivity.
Qed.

Lemma hex_success_frame_witness :
  exists m,
    cupsHashString (Some [x01; xab; xff]) 2 (Some (repeat x2a 8)) 6
    = Some (Outcome BUFFER (Some m) [])
    /\ c_string m = to_hex (take (Z.to_nat 2) [x01; xab; xff])
    /\ length m = length (repeat x2a 8)
    /\ drop (Z.to_nat (2 * 2 + 1)) m
       = drop (Z.to_nat (2 * 2 + 1)) (repeat x2a 8).
Proof.
  apply (hex_success_frame [x01; xab; xff] 2 (repeat x2a 8) 6);
    [cbn; lia | unfold SIZE_MAX; lia | cbn; lia].
Defined.

(** X9. Digests that differ give strings that differ, whatever their
    lengths and the buffers used. *)
Theorem hex_strings_distinguish (d1 d2 buf1 buf2 : list byte) bufsize1 bufsize2 :
  (1 <= length d1)%nat -> (1 <= length d2)%nat ->
  2 * Z.of_nat (length d1) + 1 <= bufsize1 <= SIZE_MAX ->
  2 * Z.of_nat (length d2) + 1 <= bufsize2 <= SIZE_MAX ->
  bufsize1 <= Z.of_nat (length buf1) ->
  bufsize2 <= Z.of_nat (length buf2) ->
  d1 <> d2 ->
  exists m1 m2,
    cupsHashString (Some d1) (Z.of_nat (length d1)) (Some buf1) bufsize1
    = Some (Outcome BUFFER (Some m1) [])
    /\ cupsHashString (Some d2) (Z.of_nat (length d2)) (Some buf2) bufsize2
       = Some (Outcome BUFFER (Some m2) [])
    /\ c_string m1 <> c_string m2.
Proof.
  intros Hd1 Hd2 Hs1 Hs2 Hb1 Hb2 Hne.
  do 2 eexists. split; [apply cupsHashString_defined; lia|].
  split; [apply cupsHashString_defined; lia|].
  rewrite !Nat2Z.id, !firstn_all, !c_string_to_hex. intros Heq.
  apply Hne. apply (f_equal from_hex) in Heq.
  rewrite !from_hex_to_hex in Heq. congruence.
Qed.

Lemma hex_strings_distinguish_witness :
  exists m1 m2,
    cupsHashString (Some [x0a; xb0]) 2 (Some (repeat x2a 5)) 5
    = Some (Outcome BUFFER (Some m1) [])
    /\ cupsHashString (Some [x0a; xb0; x00]) 3 (Some (repeat x2a 7)) 7
       = Some (Outcome BUFFER (Some m2) [])
    /\ c_string m1 <> c_string m2.
Proof.
  apply (hex_strings_distinguish [x0a; xb0] [x0a; xb0; x00]
           (repeat x2a 5) (repeat x2a 7) 5 7);
    [cbn; lia | cbn; lia | unfold SIZE_MAX; cbn; lia
    | unfold SIZE_MAX; cbn; lia | cbn; lia | cbn; lia | discriminate].
Defined.



(** Once the loop needs more room than the buffer has, it runs out of it. *)
Lemma convert_overrun n : forall h hp bufptr (m : list byte) t,
  (bufptr <= length m < bufptr + 2 * n)%nat ->
  convert n h hp bufptr (State (Some m) t) = None.
Proof.
  induction n as [|n IH]; intros h hp bufptr m t Hm; [lia|].
  cbn [convert]. unfold bind, load.
  destruct (h !! hp) as [b|]; [|reflexivity]. cbn [ret].
  rewrite hex_hi. cbn [ret]. unfold store at 1. cbn [mem trace].
  destruct (decide (bufptr < length m)%nat); [|reflexivity].
  rewrite hex_lo. cbn [ret]. unfold store at 1. cbn [mem trace].
  rewrite length_insert.
  destruct (decide (S bufptr < length m)%nat); [|reflexivity].
  apply IH. rewrite !length_insert. lia.
Qed.

(** X11. The range check computes [2 * hashsize + 1] in [size_t], where it
    wraps: for a hash size of 2^63 or more a capacity that is far too small
    passes the check, and the conversion then runs past the end of the
    buffer, which has no defined behaviour. *)
Theorem hex_range_check_wraps (h buf : list byte) hashsize bufsize :
  2 ^ 63 <= hashsize <= SIZE_MAX ->
  size_t (2 * hashsize + 1) <= bufsize ->
  Z.of_nat (length buf) <= SIZE_MAX ->
  out_of_range (Some h) hashsize (Some buf) bufsize = false
  /\ cupsHashString (Some h) hashsize (Some buf) bufsize = None.
Proof.
  unfold SIZE_MAX. intros Hh Hsize Hbuf.
  assert (Hr : out_of_range (Some h) hashsize (Some buf) bufsize = false).
  { unfold out_of_range. cbn [is_null orb].
    destruct (Z.ltb_spec hashsize 1); [lia|].
    destruct (Z.ltb_spec bufsize (size_t (2 * hashsize + 1))); [lia|].
    reflexivity. }
  split; [exact Hr|].
  unfold cupsHashString, exec, HashString.body. rewrite Hr.
  unfold bind. cbn [from_option]. unfold id.
  rewrite convert_overrun; [reflexivity | lia].
Qed.

Lemma hex_range_check_wraps_witness :
  out_of_range (Some [x01]) (2 ^ 63) (Some [x2a]) 1 = false
  /\ cupsHashString (Some [x01]) (2 ^ 63) (Some [x2a]) 1 = None.
Proof.
  apply (hex_range_check_wraps [x01] [x2a] (2 ^ 63) 1);
    [unfold SIZE_MAX; lia | vm_compute; discriminate
    | unfold SIZE_MAX; cbn; lia].
Defined.

(** * Further properties of the builds *)

(** X12. A CommonCrypto build without [CC_SHA224_DIGEST_LENGTH] has no
    branch for sha2-224 and sha2-512_224: with valid arguments both are
    reported as unknown, whatever the capacity, and nothing is written. *)
Theorem guarded_branches_compiled_out B a data datalen (buf : list byte) hashsize :
  a = "sha2-224"%string \/ a = "sha2-512_224"%string ->
  datalen <> 0 -> hashsize <> 0 ->
  cupsHashData B (CommonCrypto false) (Some a) (Some data) datalen
    (Some buf) hashsize
  = Some (Outcome (-1) (Some buf) [unknown_report]).
Proof.
  intros Ha Hl Hh.
  apply (cupsHashData_unresolved B (CommonCrypto false)); [|assumption..].
  destruct Ha as [-> | ->]; reflexivity.
Qed.

Lemma guarded_branches_compiled_out_witness :
  cupsHashData reference (CommonCrypto false) (Some "sha2-224"%string)
    (Some abc) 3 (Some (repeat x2a 64)) 64
  = Some (Outcome (-1) (Some (repeat x2a 64)) [unknown_report]).
Proof.
  apply (guarded_branches_compiled_out reference "sha2-224" abc 3
           (repeat x2a 64) 64); [left; reflexivity | lia | lia].
Defined.

(** X13. md5 is served by every build, and in the same way: for a data
    length up to INT_MAX any two builds give the same outcome on the same
    arguments. *)
Theorem md5_in_every_build B b1 b2 data datalen hash hashsize :
  0 <= datalen <= INT_MAX ->
  cupsHashData B b1 (Some "md5"%string) data datalen hash hashsize
  = cupsHashData B b2 (Some "md5"%string) data datalen hash hashsize.
Proof.
  intros Hl.
  assert (Hall : forall b,
             cupsHashData B b (Some "md5"%string) data datalen hash hashsize
             = cupsHashData B Bundled (Some "md5"%string) data datalen hash
                 hashsize).
  { intros b. unfold cupsHashData, HashData.body.
    destruct (bad_arguments _ _ _ _ _); [reflexivity|].
    cbn [from_option]. unfold id.
    destruct b as [sha224| |]; [|reflexivity..].
    set (d := from_option _ _ data).
    change (dispatch B (CommonCrypto sha224) "md5" d datalen hashsize)
      with (dispatch B (CommonCrypto true) "md5" d datalen hashsize).
    rewrite dispatch_agree by assumption. reflexivity. }
  rewrite (Hall b1), (Hall b2). reflexivity.
Qed.

Lemma md5_in_every_build_witness :
  cupsHashData reference (CommonCrypto false) (Some "md5"%string) (Some abc) 3
    (Some (repeat x2a 16)) 16
  = cupsHashData reference Bundled (Some "md5"%string) (Some abc) 3
      (Some (repeat x2a 16)) 16.
Proof.
  apply (md5_in_every_build reference (CommonCrypto false) Bundled (Some abc) 3
           (Some (repeat x2a 16)) 16).
  unfold INT_MAX. lia.
Defined.
